(** * SIM database lookup ([pytest_letp/lib/sim_lib.py])

    A shallow embedding of [validate] and of the class [SimDBParser]
    ([_get_sim_info_path_in_xml], [_get_sim_info_detail], [_get_sim_detail],
    [get_sim_apn], [get_sim_apn_tcp], [get_sim_pdp], [get_rf_band],
    [get_sim_carrier], [parse_sim_info]) together with the small part of
    Python and of lxml they rest on: [str.split], the [in] operator on
    strings, [os.path.join], and [find] / [findall] / [findtext] on paths
    made of element names.

    Python exceptions are an explicit outcome, the warning log, the parser
    instance and the test-configuration singleton are an explicit state that
    every method threads.  The parsed tree keeps its comments and
    processing instructions, which the loop over [simdb/Operator] meets
    like any other child node. *)

From Stdlib Require Import String Ascii List Bool Arith Lia.
Import ListNotations.
Open Scope string_scope.
Open Scope list_scope.

Set Implicit Arguments.
Set Warnings "-register-all".

(* ================================================================== *)
(** ** Python strings *)

Module Py.

(** [sub in s] for two strings: [sub] occurs in [s] at some position.  The
    empty string occurs in every string. *)
Fixpoint str_in (sub s : string) : bool :=
  String.prefix sub s
  || match s with
     | EmptyString => false
     | String _ s' => str_in sub s'
     end.

(** [s.split(sep)] for a one-character separator: every occurrence of
    [sep] cuts, empty pieces are kept, and the result is never empty
    ([''.split(',')] is [['']]). *)
Fixpoint split (sep : ascii) (s : string) : list string :=
  match s with
  | EmptyString => [EmptyString]
  | String c s' =>
      if Ascii.eqb c sep then EmptyString :: split sep s'
      else match split sep s' with
           | [] => [String c EmptyString]
           | piece :: pieces => String c piece :: pieces
           end
  end.

(** [s.startswith(c)] and [s.endswith(c)] for a one-character [c]. *)
Definition startswith (s : string) (c : ascii) : bool :=
  match s with
  | EmptyString => false
  | String d _ => Ascii.eqb d c
  end.

Fixpoint endswith (s : string) (c : ascii) : bool :=
  match s with
  | EmptyString => false
  | String d EmptyString => Ascii.eqb d c
  | String _ s' => endswith s' c
  end.

(** Truth value of a string: [if s:] holds for the non-empty ones. *)
Definition truthy (s : string) : bool :=
  match s with
  | EmptyString => false
  | String _ _ => true
  end.

(** [posixpath.join(a, b)]: an absolute [b] replaces [a]; otherwise the
    two are glued with one ["/"], which is left out when [a] is empty or
    already ends with one. *)
Definition path_join2 (a b : string) : string :=
  if startswith b "/" then b
  else if negb (truthy a) || endswith a "/" then a ++ b
  else a ++ "/" ++ b.

(** [os.path.join(a, *p)]. *)
Definition path_join (a : string) (p : list string) : string :=
  fold_left path_join2 p a.

(** The values a caller can pass for [iccid] and [imsi]: [None], a [str],
    or an object of another type (an [int], [bytes]). *)
Inductive object : Type :=
| None_
| Str (s : string)
| Int (n : nat)
| Bytes (b : list ascii).

Definition is_None (o : object) : bool :=
  match o with None_ => true | _ => false end.

Definition isinstance_str (o : object) : bool :=
  match o with Str _ => true | _ => false end.

(** [o == ""]. *)
Definition eq_empty_str (o : object) : bool :=
  match o with Str EmptyString => true | _ => false end.

(** Exceptions the module can run into. *)
Inductive exn : Type :=
| AttributeError
| TypeError.

Inductive outcome (A : Type) : Type :=
| Return (a : A)
| Raise (e : exn).

Arguments Return {A} a.
Arguments Raise {A} e.

(** [t.split(",")] where [t] is the text of an element: [None] has no
    [split]. *)
Definition split_of (t : option string) : outcome (list string) :=
  match t with
  | Some s => Return (split "," s)
  | None => Raise AttributeError
  end.

(** [sub in s] where [sub] is the text of an element: [None in s] raises
    for a string [s]. *)
Definition in_of (sub : option string) (s : string) : outcome bool :=
  match sub with
  | Some t => Return (str_in t s)
  | None => Raise TypeError
  end.

(** The string behind an object that passed [isinstance(o, str)]. *)
Definition str_of (o : object) : string :=
  match o with Str s => s | _ => EmptyString end.

Definition obind {A B} (o : outcome A) (k : A -> outcome B) : outcome B :=
  match o with
  | Return a => k a
  | Raise e => Raise e
  end.

End Py.

Import Py.

Notation "x <-! c ; k" := (Py.obind c (fun x => k))
  (at level 61, c at next level, right associativity).

(* ================================================================== *)
(** ** lxml elements and ElementPath *)

Module etree.

(** A node of the parsed tree.  An element has its tag, its text ([None]
    when it has none) and its child nodes in document order.  A comment
    and a processing instruction are nodes too: they stand among the
    children of an element, have a text and no children, and their tag is
    not a string but the factory function.  The documents have no
    namespaces. *)
Inductive _Element : Type :=
| Element (tag : string) (text : option string) (children : list _Element)
| Comment (text : option string)
| ProcessingInstruction (target : string) (text : option string).

Definition is_element (e : _Element) : bool :=
  match e with Element _ _ _ => true | _ => false end.

(** The tag of an element.  For the other nodes, whose tag is no string,
    it is left empty: [in_tag] and [iterchildren] look at the kind of node
    first. *)
Definition tag (e : _Element) : string :=
  match e with Element t _ _ => t | _ => EmptyString end.

Definition text (e : _Element) : option string :=
  match e with
  | Element _ t _ => t
  | Comment t => t
  | ProcessingInstruction _ t => t
  end.

Definition children (e : _Element) : list _Element :=
  match e with Element _ _ c => c | _ => [] end.

(** [sub in e.tag]: the [in] of strings for an element; for a comment or a
    processing instruction the tag is a function, which [in] cannot search
    ([TypeError]). *)
Definition in_tag (sub : string) (e : _Element) : Py.outcome bool :=
  if is_element e then Py.Return (Py.str_in sub (tag e))
  else Py.Raise Py.TypeError.

(** [e.text] where [e] is what [find] returned: [None.text] raises. *)
Definition text_of (e : option _Element) : Py.outcome (option string) :=
  match e with
  | Some el => Py.Return (text el)
  | None => Py.Raise Py.AttributeError
  end.

(** [for x in e] where [e] is what [find] returned: every child node of
    the element, comments and processing instructions included, while
    [None] cannot be iterated. *)
Definition iter_of (e : option _Element) : Py.outcome (list _Element) :=
  match e with
  | Some el => Py.Return (children el)
  | None => Py.Raise Py.TypeError
  end.

(** [elem.iterchildren(tag)]: the child elements of that tag; comments
    and processing instructions are left out. *)
Definition iterchildren (t : string) (e : _Element) : list _Element :=
  filter (fun c => is_element c && String.eqb (tag c) t) (children e).

(** One ElementPath step per element name: the children of that name of
    every element selected so far, in document order.  This is ElementPath
    on the paths the module builds from element names: the constant paths
    of the source, and [simdb/Operator/<carrier>/<setting>] for a carrier
    that is a name ([plain_name] below).  The rest of the ElementPath
    syntax ("*", ".", "..", "//", predicates, a trailing "/", the empty
    path) is outside the model: what is stated of a getter for a carrier
    other than the tag of a record takes [plain_name] as a hypothesis. *)
Fixpoint select (steps : list string) (result : list _Element) : list _Element :=
  match steps with
  | [] => result
  | t :: steps' => select steps' (flat_map (iterchildren t) result)
  end.

(** [iterfind(elem, path)] for a path [name/name/...]. *)
Definition iterfind (elem : _Element) (path : string) : list _Element :=
  select (Py.split "/" path) [elem].

Definition findall (elem : _Element) (path : string) : list _Element :=
  iterfind elem path.

(** [find]: the first element of [iterfind], [None] when there is none. *)
Definition find (elem : _Element) (path : string) : option _Element :=
  hd_error (iterfind elem path).

(** [findtext]: [None] when nothing is found, otherwise [el.text or ''].  *)
Definition findtext (elem : _Element) (path : string) : option string :=
  match find elem path with
  | None => None
  | Some el => Some (match text el with
                     | Some t => t
                     | None => ""
                     end)
  end.

End etree.

Import etree.

(* ================================================================== *)
(** ** The module's state and its monad *)

(** [SimInfo]: the named tuple of thirteen fields.  Every field holds a
    string or [None]. *)
Record SimInfo : Type := mkSimInfo {
  Carrier : option string;
  APN : option string;
  APN_TCP : option string;
  PDP : option string;
  Band : option string;
  Iccid : option string;
  Imsi : option string;
  Mcc : option string;
  Mnc : option string;
  Tel : option string;
  Pin : option string;
  Puk : option string;
  Smsc : option string
}.

(** [SimInfo._make(iterable)]: exactly thirteen items, [TypeError]
    otherwise. *)
Definition SimInfo_make (l : list (option string)) : outcome SimInfo :=
  match l with
  | [a; b; c; d; e; f; g; h; i; j; k; m; n] =>
      Return (mkSimInfo a b c d e f g h i j k m n)
  | _ => Raise TypeError
  end.

(** The attributes [__init__] sets on a [SimDBParser]. *)
Record SimDBParser : Type := mkSimDBParser {
  root : _Element;
  sim_capability_xml_file_name : string
}.

(** [SimDBParser(xmlfile)], given the root of the parsed file. *)
Definition SimDBParser_init (tree_root : _Element) : SimDBParser :=
  {| root := tree_root; sim_capability_xml_file_name := "simdb" |}.

(** What a call can see: the instance [self], the site of
    [TestConfig.default_cfg] ([get_site()] returns it, [None] when no site
    is set) and the warnings [swilog] has received, oldest first. *)
Record state : Type := mkState {
  self : SimDBParser;
  default_cfg_site : option string;
  swilog : list string
}.

(** A method: from a state to an outcome and the state it leaves. *)
Definition M (A : Type) : Type := state -> outcome A * state.

Definition ret {A} (a : A) : M A := fun s => (Return a, s).

Definition bind {A B} (m : M A) (k : A -> M B) : M B :=
  fun s =>
    match m s with
    | (Return a, s') => k a s'
    | (Raise e, s') => (Raise e, s')
    end.

Definition lift {A} (o : outcome A) : M A := fun s => (o, s).

Definition self_root : M _Element := fun s => (Return (root (self s)), s).

Definition self_sim_capability_xml_file_name : M string :=
  fun s => (Return (sim_capability_xml_file_name (self s)), s).

(** [TestConfig.default_cfg.get_site()]. *)
Definition get_site : M (option string) :=
  fun s => (Return (default_cfg_site s), s).

(** [swilog.warning(msg)]. *)
Definition swilog_warning (msg : string) : M unit :=
  fun s => (Return tt, {| self := self s;
                          default_cfg_site := default_cfg_site s;
                          swilog := swilog s ++ [msg] |}).

Notation "x <- c ;; k" := (bind c (fun x => k))
  (at level 61, c at next level, right associativity).
Notation "c ;;; k" := (bind c (fun _ => k))
  (at level 61, right associativity).

(* ================================================================== *)
(** ** [validate] *)

(** The first loop runs to its [else] when no entry of [iccid_list] occurs
    in [iccid]; the second one, on the IMSI side, is entered only for a
    true [imsi]. *)
Definition validate (element : _Element) (iccid imsi : string) : outcome bool :=
  iccid_text <-! text_of (find element "ICCID_prefix");
  iccid_list <-! split_of iccid_text;
  if existsb (fun curr_iccid => str_in curr_iccid iccid) iccid_list then
    if truthy imsi then
      imsi_text <-! text_of (find element "IMSI_prefixes");
      imsi_list <-! split_of imsi_text;
      if existsb (fun curr_imsi => str_in curr_imsi imsi) imsi_list
      then Return true
      else Return false
    else Return true
  else Return false.

(* ================================================================== *)
(** ** [SimDBParser] *)

Definition _get_sim_info_path_in_xml (sim_type : string) : M string :=
  name <- self_sim_capability_xml_file_name;;
  ret (path_join name ["Operator"; sim_type]).

(** [try: element.find(path).text / except AttributeError: None]. *)
Definition _get_sim_info_detail (element : _Element) (path : string)
  : outcome (option string) :=
  match text_of (find element path) with
  | Return t => Return t
  | Raise AttributeError => Return None
  | Raise e => Raise e
  end.

Definition _get_sim_detail (sim_type detail : string) : M (option string) :=
  info_path <- _get_sim_info_path_in_xml sim_type;;
  let detail_path_in_xml := path_join info_path [detail] in
  r <- self_root;;
  ret (findtext r detail_path_in_xml).

Definition get_sim_apn (sim_type : string) : M (option string) :=
  _get_sim_detail sim_type "APN".

Definition get_sim_apn_tcp (sim_type : string) : M (option string) :=
  _get_sim_detail sim_type "APN_TCP".

Definition get_sim_pdp (sim_type : string) : M (option string) :=
  _get_sim_detail sim_type "PDP".

Definition get_rf_band (sim_type : string) : M (option string) :=
  _get_sim_detail sim_type "Band".

Definition get_sim_carrier (sim_element : _Element) : M string :=
  site <- get_site;;
  let carrier := tag sim_element in
  amarisoft <- lift (in_tag "Amarisoft" sim_element);;
  ret (if amarisoft
       then match site with
            | Some site => ("Amarisoft_" ++ site)%string
            | None => carrier
            end
       else carrier).

(** The loop over [simdb/uicc]: it leaves [(is_detail_info, sim_info, apn)],
    which start as [(False, [], None)] and change at the first record
    whose [iccid] text occurs in [iccid]. *)
Fixpoint detail_loop (uiccs : list _Element) (iccid : string)
  : outcome (bool * list (option string) * option string) :=
  match uiccs with
  | [] => Return (false, [], None)
  | uicc :: uiccs' =>
      curr_iccid <-! text_of (find uicc "iccid");
      found <-! in_of curr_iccid iccid;
      if found then
        apn <-! _get_sim_info_detail uicc "apn";
        d_iccid <-! _get_sim_info_detail uicc "iccid";
        d_imsi <-! _get_sim_info_detail uicc "imsi";
        d_mcc <-! _get_sim_info_detail uicc "mcc";
        d_mnc <-! _get_sim_info_detail uicc "mnc";
        d_tel <-! _get_sim_info_detail uicc "tel";
        d_pin <-! _get_sim_info_detail uicc "pin";
        d_puk <-! _get_sim_info_detail uicc "puk";
        d_smsc <-! _get_sim_info_detail uicc "smsc";
        Return (true,
                [d_iccid; d_imsi; d_mcc; d_mnc; d_tel; d_pin; d_puk; d_smsc],
                apn)
      else detail_loop uiccs' iccid
  end.

(** The loop over the children of [simdb/Operator]: [Some sim_tuple] when
    it left through [break], [None] when it ran to its [else]. *)
Fixpoint operator_loop (sim_elements : list _Element) (iccid imsi : string)
    (apn : option string) : M (option (list (option string))) :=
  match sim_elements with
  | [] => ret None
  | element :: sim_elements' =>
      ok <- lift (validate element iccid imsi);;
      if ok then
        carrier <- get_sim_carrier element;;
        apn <- match apn with
               | None => get_sim_apn carrier
               | Some _ => ret apn
               end;;
        apn_tcp <- get_sim_apn_tcp carrier;;
        pdp <- get_sim_pdp carrier;;
        band <- get_rf_band carrier;;
        ret (Some [Some carrier; apn; apn_tcp; pdp; band])
      else operator_loop sim_elements' iccid imsi apn
  end.

Definition parse_sim_info (iccid imsi : object) : M (option SimInfo) :=
  if is_None iccid || negb (isinstance_str iccid) || eq_empty_str iccid then
    swilog_warning "No ICCID from current device";;;
    ret None
  else if is_None imsi || negb (isinstance_str imsi) || eq_empty_str imsi then
    swilog_warning "No IMSI from current device";;;
    ret None
  else
    let iccid := str_of iccid in
    let imsi := str_of imsi in
    r <- self_root;;
    detail <- lift (detail_loop (findall r "simdb/uicc") iccid);;
    let '(is_detail_info, sim_info, apn) := detail in
    r <- self_root;;
    sim_elements <- lift (iter_of (find r "simdb/Operator"));;
    found <- operator_loop sim_elements iccid imsi apn;;
    match found with
    | None =>
        swilog_warning "Unable to parse Sim Information";;;
        ret None
    | Some sim_tuple =>
        let sim_tuple :=
          sim_tuple ++ (if is_detail_info then sim_info else repeat None 8) in
        info <- lift (SimInfo_make sim_tuple);;
        ret (Some info)
    end.

(** A sequence of [parse_sim_info] calls on one instance: the outcomes in
    call order and the state left. *)
Fixpoint run_calls (calls : list (object * object)) (s : state)
  : list (outcome (option SimInfo)) * state :=
  match calls with
  | [] => ([], s)
  | (iccid, imsi) :: calls' =>
      let (o, s') := parse_sim_info iccid imsi s in
      let (os, s'') := run_calls calls' s' in
      (o :: os, s'')
  end.

(** The state a fresh [SimDBParser] starts from. *)
Definition fresh (tree_root : _Element) (site : option string) : state :=
  {| self := SimDBParser_init tree_root;
     default_cfg_site := site;
     swilog := [] |}.

(* ================================================================== *)
(** ** Notions the properties are stated with *)

(** What a method returns in a state, and the state it leaves. *)
Definition eval {A} (m : M A) (s : state) : outcome A := fst (m s).
Definition exec {A} (m : M A) (s : state) : state := snd (m s).

(** The state [s] after [swilog] received the warnings [w]. *)
Definition logged (s : state) (w : list string) : state :=
  {| self := self s;
     default_cfg_site := default_cfg_site s;
     swilog := swilog s ++ w |}.

(** [sub] occurs somewhere inside [s]. *)
Definition occurs_in (sub s : string) : Prop :=
  exists pre post : string, s = (pre ++ sub ++ post)%string.

(** One of the comma-separated entries of the text of the child [field] of
    [element] occurs in [s]. *)
Definition entry_occurs (element : _Element) (field s : string) : Prop :=
  exists t p, text_of (find element field) = Return (Some t)
              /\ In p (split "," t) /\ occurs_in p s.

(** [element] has the child [field] with a text, and none of its
    comma-separated entries occurs in [s]. *)
Definition no_entry_occurs (element : _Element) (field s : string) : Prop :=
  exists t, text_of (find element field) = Return (Some t)
            /\ forall p, In p (split "," t) -> str_in p s = false.

(** [element] is the record of [l] the operator loop stops at: [validate]
    accepts it and returned [False] for every record before it. *)
Inductive matched (iccid imsi : string) : list _Element -> _Element -> Prop :=
| matched_here element l :
    validate element iccid imsi = Return true ->
    matched iccid imsi (element :: l) element
| matched_later skipped l element :
    validate skipped iccid imsi = Return false ->
    matched iccid imsi l element ->
    matched iccid imsi (skipped :: l) element.

(** The [iccid] text of [uicc] is there and does not occur in [iccid]. *)
Definition detail_skipped (iccid : string) (uicc : _Element) : Prop :=
  exists t, text_of (find uicc "iccid") = Return (Some t)
            /\ str_in t iccid = false.

(** [uicc] is the record of [l] the detail loop stops at. *)
Inductive detail_matched (iccid : string) : list _Element -> _Element -> Prop :=
| detail_here uicc l t :
    text_of (find uicc "iccid") = Return (Some t) ->
    str_in t iccid = true ->
    detail_matched iccid (uicc :: l) uicc
| detail_later skipped l uicc :
    detail_skipped iccid skipped ->
    detail_matched iccid l uicc ->
    detail_matched iccid (skipped :: l) uicc.

(** An element name as it stands in a path: not empty and without ["/"]. *)
Fixpoint no_slash (t : string) : bool :=
  match t with
  | EmptyString => true
  | String c t' => negb (Ascii.eqb c "/") && no_slash t'
  end.

(** The characters of an XML name without namespace, in ASCII: a letter
    or ["_"] first, then letters, digits, ["_"], ["-"] and ["."].  On such
    a name ElementPath has nothing to interpret. *)
Definition name_start_char (c : ascii) : bool :=
  let n := nat_of_ascii c in
  (Nat.leb 65 n && Nat.leb n 90) || (Nat.leb 97 n && Nat.leb n 122)
  || Ascii.eqb c "_".

Definition name_char (c : ascii) : bool :=
  let n := nat_of_ascii c in
  name_start_char c || (Nat.leb 48 n && Nat.leb n 57)
  || Ascii.eqb c "-" || Ascii.eqb c ".".

Fixpoint name_chars (t : string) : bool :=
  match t with
  | EmptyString => true
  | String c t' => name_char c && name_chars t'
  end.

Definition plain_name (t : string) : bool :=
  match t with
  | EmptyString => false
  | String c t' => name_start_char c && name_chars t'
  end.

(** [s.join(pieces)] for a one-character [s]; [split] undoes it. *)
Fixpoint join (sep : ascii) (pieces : list string) : string :=
  match pieces with
  | [] => EmptyString
  | [p] => p
  | p :: pieces' => (p ++ String sep (join sep pieces'))%string
  end.

(** A method that reads [self] and the site, and at most adds warnings:
    its outcome and the warnings it adds are fixed by [self] and the site
    alone, and it hands both back as it found them. *)
Definition readonly {A} (m : M A) : Prop :=
  forall p site, exists (o : outcome A) (w : list string),
    forall log, m (mkState p site log) = (o, mkState p site (log ++ w)).

(** How a call with the strings [iccid] and [imsi] gets to a [SimInfo]: the
    detail loop ends with [(is_detail_info, sim_info, apn)], the operator
    loop stops at [element] of the first [simdb/Operator], the getters
    return [carrier] and the four settings, and the thirteen items make
    [info]. *)
Inductive resolves (s : state) (iccid imsi : string) (info : SimInfo) : Prop :=
| resolves_intro (is_detail_info : bool) (sim_info : list (option string))
    (apn : option string) (operator element : _Element) (carrier : string)
    (operator_apn apn_tcp pdp band : option string) :
    truthy iccid = true ->
    truthy imsi = true ->
    detail_loop (findall (root (self s)) "simdb/uicc") iccid
      = Return (is_detail_info, sim_info, apn) ->
    find (root (self s)) "simdb/Operator" = Some operator ->
    matched iccid imsi (children operator) element ->
    eval (get_sim_carrier element) s = Return carrier ->
    eval (get_sim_apn carrier) s = Return operator_apn ->
    eval (get_sim_apn_tcp carrier) s = Return apn_tcp ->
    eval (get_sim_pdp carrier) s = Return pdp ->
    eval (get_rf_band carrier) s = Return band ->
    SimInfo_make
      ([Some carrier;
        match apn with None => operator_apn | Some _ => apn end;
        apn_tcp; pdp; band]
       ++ (if is_detail_info then sim_info else repeat None 8))
      = Return info ->
    resolves s iccid imsi info.

(** [element] has the child [field], and that child has a text. *)
Definition has_text (element : _Element) (field : string) : Prop :=
  exists t, text_of (find element field) = Return (Some t).

(** A document none of whose records lacks what the loops read without a
    guard: [simdb/Operator] is there, every detail record has an [iccid]
    text, and every child node of [simdb/Operator] is a record with both
    prefix lists (so no comment stands among the records). *)
Definition complete (r : _Element) : Prop :=
  Forall (fun uicc => has_text uicc "iccid") (findall r "simdb/uicc")
  /\ exists operator,
       find r "simdb/Operator" = Some operator
       /\ Forall (fun element => has_text element "ICCID_prefix"
                                 /\ has_text element "IMSI_prefixes")
            (children operator).

(** The carrier of [element] is its own tag, and looking that name up from
    the root leads back to [element]: the instance is one [__init__] made,
    the tag is a plain name, and [element] is the first record of that name
    under the first [simdb/Operator]. *)
Definition names_itself (s : state) (element : _Element) : Prop :=
  sim_capability_xml_file_name (self s) = "simdb"
  /\ plain_name (tag element) = true
  /\ eval (get_sim_carrier element) s = Return (tag element)
  /\ exists operator,
       find (root (self s)) "simdb/Operator" = Some operator
       /\ hd_error (iterchildren (tag element) operator) = Some element.

(** The setting [field] the document [r] holds for the name [carrier]:
    among the [simdb] children of the root, their [Operator] children and
    the records named [carrier] under these, in document order, the text
    of the first [field] element (the empty string when it has no text),
    and [None] when there is no such element. *)
Definition first_setting (r : _Element) (carrier field : string)
  : option string :=
  match
    hd_error
      (flat_map (iterchildren field)
         (flat_map (iterchildren carrier)
            (flat_map (iterchildren "Operator") (iterchildren "simdb" r))))
  with
  | Some el => Some match text el with Some t => t | None => EmptyString end
  | None => None
  end.

(** The names the getters are asked for are plain names: the instance is
    one [__init__] made, the name made from a configured site is plain,
    and so is the tag of every record of [simdb/Operator]. *)
Definition carriers_are_names (s : state) : Prop :=
  sim_capability_xml_file_name (self s) = "simdb"
  /\ (forall site, default_cfg_site s = Some site ->
                   plain_name ("Amarisoft_" ++ site) = true)
  /\ forall operator element,
       find (root (self s)) "simdb/Operator" = Some operator ->
       In element (children operator) ->
       plain_name (tag element) = true.

(** The call returned [None]. *)
Definition returned_none (o : outcome (option SimInfo)) : bool :=
  match o with
  | Return None => true
  | _ => false
  end.

(* ================================================================== *)
(** ** Sample databases *)

Module Sample.

Definition leaf (t x : string) : _Element := Element t (Some x) [].

Definition simdb (uiccs operators : list _Element) : _Element :=
  Element "root" None
    [Element "simdb" None (uiccs ++ [Element "Operator" None operators])].

(** An operator record with both prefix lists. *)
Definition operator (name iccids imsis apn : string) : _Element :=
  Element name None
    [leaf "ICCID_prefix" iccids; leaf "IMSI_prefixes" imsis;
     leaf "APN" apn; leaf "APN_TCP" "tcp.apn"; leaf "PDP" "IP";
     leaf "Band" "4"].

(** The Telus record of the scenario: no IMSI prefixes, no APN_TCP. *)
Definition telus_bare : _Element :=
  Element "Telus" None
    [leaf "ICCID_prefix" "89302"; leaf "APN" "telus.apn"; leaf "PDP" "IP";
     leaf "Band" "4"].

Definition telus : _Element := operator "Telus" "89302,89303" "302,310" "telus.apn".

(** A detail record without [apn] text, one with. *)
Definition uicc_plain : _Element :=
  Element "uicc" None [leaf "iccid" "8930212345"; Element "apn" None []].

Definition uicc_apn : _Element :=
  Element "uicc" None
    [leaf "iccid" "8930212345"; leaf "imsi" "302220000000001";
     leaf "apn" "private.apn"].

(** The record of the site "fr", which no SIM matches by prefix. *)
Definition amarisoft_fr : _Element :=
  Element "Amarisoft_fr" None
    [leaf "ICCID_prefix" "00000"; leaf "IMSI_prefixes" "00000";
     leaf "APN" "fr.apn"; leaf "APN_TCP" "fr.tcp.apn"; leaf "PDP" "IPV4V6";
     leaf "Band" "7"].

(** A detail record without an [iccid] child. *)
Definition uicc_no_iccid : _Element :=
  Element "uicc" None [leaf "imsi" "302220000000001"].

Definition bell : _Element := operator "Bell" "89301" "302" "bell.apn".

(** Its second ICCID entry occurs inside the ICCID used below without
    being a prefix of it. *)
Definition rogers : _Element :=
  operator "Rogers" "77,30212" "310,302" "rogers.apn".

(** A record without any child. *)
Definition broken : _Element := Element "Broken" None [].

Definition lab : _Element := operator "Amarisoft" "89302" "302" "lab.apn".

Definition box : _Element := operator "AmarisoftBox" "89302" "302" "box.apn".

(** A record whose two prefix lists end with a comma. *)
Definition trailing : _Element :=
  operator "Trailing" "89302," "302," "trailing.apn".

(** Two records of one name: the first has no [Band], the second has. *)
Definition twin_first : _Element :=
  Element "Twin" None
    [leaf "ICCID_prefix" "89302"; leaf "IMSI_prefixes" "302";
     leaf "APN" "first.apn"].

Definition twin_second : _Element :=
  Element "Twin" None
    [leaf "ICCID_prefix" "89444"; leaf "IMSI_prefixes" "444";
     leaf "APN" "second.apn"; leaf "Band" "7"].

(** The Telus record with its entries in another order, one twice. *)
Definition telus_shuffled : _Element :=
  operator "Telus" "89303,89302,89303" "310,302" "telus.apn".

(** A record whose [APN] element is empty. *)
Definition quiet : _Element :=
  Element "Quiet" None
    [leaf "ICCID_prefix" "89302"; leaf "IMSI_prefixes" "302";
     Element "APN" None []].

(** The detail record of another SIM. *)
Definition uicc_other : _Element :=
  Element "uicc" None [leaf "iccid" "8944000000"; leaf "apn" "other.apn"].

(** A detail record whose [iccid] element is empty. *)
Definition uicc_empty_iccid : _Element :=
  Element "uicc" None [Element "iccid" None []].

(** The states of fresh instances on these documents. *)
Definition s_telus : state := fresh (simdb [uicc_plain] [telus]) None.
Definition s_detail : state := fresh (simdb [uicc_apn] [telus]) None.
Definition s_bell : state := fresh (simdb [uicc_apn] [bell]) None.
Definition s_empty : state := fresh (simdb [] []) None.
Definition s_lab : state := fresh (simdb [] [lab]) (Some "fr").
Definition s_box : state := fresh (simdb [] [box]) (Some "fr").
Definition s_sites : state := fresh (simdb [] [lab; amarisoft_fr]) (Some "fr").
Definition s_bare : state := fresh (simdb [uicc_plain] [telus_bare]) None.
Definition s_no_iccid : state := fresh (simdb [uicc_no_iccid] [telus]) None.
Definition s_no_operator : state :=
  fresh (Element "root" None [Element "simdb" None []]) None.
Definition s_quiet : state := fresh (simdb [] [quiet]) None.
Definition s_scan : state :=
  fresh (simdb [uicc_plain] [bell; rogers; broken]) None.
Definition s_broken_detail : state := fresh (simdb [uicc_no_iccid] [bell]) None.
Definition s_commented : state :=
  fresh (simdb [uicc_plain] [Comment (Some " carriers "); bell]) None.
Definition s_twins : state := fresh (simdb [] [twin_first; twin_second]) None.

End Sample.

(* ================================================================== *)
(** ** Strings *)

Section Strings.

Lemma append_assoc (a b c : string) :
  ((a ++ b) ++ c = a ++ (b ++ c))%string.
Proof. induction a as [|x a IH]; simpl; [reflexivity | now rewrite IH]. Qed.

Lemma prefix_append (sub s : string) :
  String.prefix sub s = true <-> exists post, s = (sub ++ post)%string.
Proof.
  revert s; induction sub as [|a sub IH]; intros s.
  - split; [intros _; now exists s | intros _; destruct s; reflexivity].
  - destruct s as [|b s]; simpl.
    + split; [discriminate | intros [post H]; discriminate].
    + destruct (ascii_dec a b) as [->|Hab].
      * rewrite IH. split; intros [post H]; exists post.
        -- now rewrite H.
        -- now inversion H.
      * split; [discriminate|]. intros [post H]. simpl in H. congruence.
Qed.

(** The [in] operator decides occurrence anywhere in the string. *)
Lemma str_in_occurs (sub s : string) :
  str_in sub s = true <-> occurs_in sub s.
Proof.
  unfold occurs_in. induction s as [|c s IH].
  - cbn [str_in]. rewrite orb_false_r, prefix_append. split.
    + intros [post H]. exists EmptyString, post. exact H.
    + intros [pre [post H]]. destruct pre; [|discriminate].
      exists post. exact H.
  - cbn [str_in]. rewrite orb_true_iff, prefix_append, IH. split.
    + intros [[post H]|[pre [post H]]].
      * exists EmptyString, post. exact H.
      * exists (String c pre), post. simpl. now rewrite H.
    + intros [pre [post H]]. destruct pre as [|d pre].
      * left. exists post. exact H.
      * right. simpl in H. inversion H. now exists pre, post.
Qed.

Lemma str_in_empty (s : string) : str_in EmptyString s = true.
Proof. destruct s; reflexivity. Qed.

Lemma split_not_nil (sep : ascii) (s : string) : split sep s <> [].
Proof.
  induction s as [|c s IH]; simpl; [discriminate|].
  destruct (Ascii.eqb c sep); [discriminate|].
  destruct (split sep s); discriminate.
Qed.

(** Joining the pieces with the separator gives the string back. *)
Lemma join_split (sep : ascii) (s : string) : join sep (split sep s) = s.
Proof.
  induction s as [|c s IH]; [reflexivity|].
  cbn [split]. destruct (Ascii.eqb c sep) eqn:E.
  - apply Ascii.eqb_eq in E. subst c.
    pose proof (split_not_nil sep s) as Hn.
    destruct (split sep s) as [|p ps]; [contradiction|].
    cbn [join] in *. now rewrite IH.
  - pose proof (split_not_nil sep s) as Hn.
    destruct (split sep s) as [|p ps]; [contradiction|].
    destruct ps as [|q ps]; cbn [join] in *; now rewrite <- IH.
Qed.

(** [split] cuts at a separator between two strings. *)
Lemma split_append (sep : ascii) (a b : string) :
  split sep (a ++ String sep b) = split sep a ++ split sep b.
Proof.
  induction a as [|c a IH]; simpl.
  - now rewrite Ascii.eqb_refl.
  - destruct (Ascii.eqb c sep); rewrite IH; [reflexivity|].
    pose proof (split_not_nil sep a) as Hn.
    destruct (split sep a); [contradiction|reflexivity].
Qed.

Lemma split_no_slash (t : string) :
  no_slash t = true -> split "/" t = [t].
Proof.
  induction t as [|c t IH]; [reflexivity|].
  cbn [no_slash split]. intros H. apply andb_true_iff in H as [Hc Ht].
  apply negb_true_iff in Hc. rewrite Hc, (IH Ht). reflexivity.
Qed.

Lemma startswith_no_slash (t : string) :
  no_slash t = true -> startswith t "/" = false.
Proof.
  destruct t as [|c t]; [reflexivity|].
  cbn [no_slash startswith]. intros H. apply andb_true_iff in H as [Hc _].
  now apply negb_true_iff in Hc.
Qed.

Lemma name_char_no_slash (c : ascii) :
  name_char c = true -> Ascii.eqb c "/" = false.
Proof.
  intros H. destruct (Ascii.eqb c "/") eqn:E; [|reflexivity].
  apply Ascii.eqb_eq in E. subst c. discriminate.
Qed.

Lemma name_chars_no_slash (t : string) :
  name_chars t = true -> no_slash t = true.
Proof.
  induction t as [|c t IH]; [reflexivity|]. cbn [name_chars no_slash].
  intros H. apply andb_true_iff in H as [Hc Ht].
  now rewrite (name_char_no_slash _ Hc), (IH Ht).
Qed.

(** A plain name is not empty and has no ["/"]. *)
Lemma plain_name_no_slash (t : string) :
  plain_name t = true -> truthy t = true /\ no_slash t = true.
Proof.
  destruct t as [|c t]; [discriminate|]. cbn [plain_name].
  intros H. apply andb_true_iff in H as [Hc Ht]. split; [reflexivity|].
  apply (name_chars_no_slash (String c t)). cbn [name_chars].
  rewrite Ht, andb_true_r. unfold name_char. now rewrite Hc.
Qed.

Lemma endswith_append_plain (a t : string) :
  plain_name t = true -> endswith (a ++ t) "/" = false.
Proof.
  intros H. apply plain_name_no_slash in H as [Hne Hns].
  induction a as [|c a IH].
  - simpl. clear Hne. induction t as [|c t IHt]; [reflexivity|].
    cbn [no_slash] in Hns. apply andb_true_iff in Hns as [Hc Ht].
    apply negb_true_iff in Hc. cbn [endswith].
    destruct t; [exact Hc | exact (IHt Ht)].
  - cbn [append endswith]. destruct (a ++ t)%string eqn:E; [|exact IH].
    destruct a; [|discriminate]. simpl in E. subst t. discriminate.
Qed.

(** The path of a field of the operator record named [sim_type]. *)
Lemma path_join_operator (sim_type detail : string) :
  plain_name sim_type = true -> no_slash detail = true ->
  split "/" (path_join (path_join "simdb" ["Operator"; sim_type]) [detail])
  = ["simdb"; "Operator"; sim_type; detail].
Proof.
  intros Hp Hd. destruct (plain_name_no_slash _ Hp) as [_ Hns].
  unfold path_join. cbn [fold_left].
  replace (path_join2 "simdb" "Operator") with "simdb/Operator"
    by reflexivity.
  unfold path_join2 at 2. rewrite (startswith_no_slash _ Hns).
  replace (negb (truthy "simdb/Operator") || endswith "simdb/Operator" "/")
    with false by reflexivity.
  unfold path_join2. rewrite (startswith_no_slash _ Hd).
  replace ("simdb/Operator" ++ "/" ++ sim_type)%string
    with ("simdb/Operator/" ++ sim_type)%string by reflexivity.
  rewrite (endswith_append_plain _ _ Hp).
  replace (negb (truthy ("simdb/Operator/" ++ sim_type)) || false)
    with false by reflexivity.
  replace (("simdb/Operator/" ++ sim_type) ++ "/" ++ detail)%string
    with ("simdb" ++ String "/" ("Operator" ++ String "/"
            (sim_type ++ String "/" detail)))%string.
  - rewrite !split_append, (split_no_slash _ Hns), (split_no_slash _ Hd).
    reflexivity.
  - now rewrite append_assoc.
Qed.

End Strings.

(* ================================================================== *)
(** ** Methods only read *)

Section Readonly.

Lemma readonly_ret A (a : A) : readonly (ret a).
Proof.
  intros p site. exists (Return a), []. intros log.
  unfold ret. now rewrite app_nil_r.
Qed.

Lemma readonly_lift A (o : outcome A) : readonly (lift o).
Proof.
  intros p site. exists o, []. intros log.
  unfold lift. now rewrite app_nil_r.
Qed.

Lemma readonly_bind A B (m : M A) (k : A -> M B) :
  readonly m -> (forall a, readonly (k a)) -> readonly (bind m k).
Proof.
  intros Hm Hk p site. destruct (Hm p site) as (o & w & Hrun).
  destruct o as [a|e].
  - destruct (Hk a p site) as (o' & w' & Hrun').
    exists o', (w ++ w'). intros log.
    unfold bind. now rewrite Hrun, Hrun', app_assoc.
  - exists (Raise e), w. intros log. unfold bind. now rewrite Hrun.
Qed.

Lemma readonly_self_root : readonly self_root.
Proof.
  intros p site. exists (Return (root p)), []. intros log.
  unfold self_root. simpl. now rewrite app_nil_r.
Qed.

Lemma readonly_self_name : readonly self_sim_capability_xml_file_name.
Proof.
  intros p site. exists (Return (sim_capability_xml_file_name p)), [].
  intros log. unfold self_sim_capability_xml_file_name. simpl.
  now rewrite app_nil_r.
Qed.

Lemma readonly_get_site : readonly get_site.
Proof.
  intros p site. exists (Return site), []. intros log.
  unfold get_site. simpl. now rewrite app_nil_r.
Qed.

Lemma readonly_swilog_warning (msg : string) : readonly (swilog_warning msg).
Proof. intros p site. exists (Return tt), [msg]. intros log. reflexivity. Qed.

End Readonly.

Create HintDb readonly.
#[export] Hint Resolve readonly_ret readonly_lift readonly_self_root
  readonly_self_name readonly_get_site readonly_swilog_warning : readonly.

Ltac readonly_steps :=
  repeat first
    [ solve [auto with readonly]
    | apply readonly_bind; [ | intros ? ] ].

Section ReadonlyMethods.

Lemma readonly_get_sim_info_path_in_xml (sim_type : string) :
  readonly (_get_sim_info_path_in_xml sim_type).
Proof. unfold _get_sim_info_path_in_xml. readonly_steps. Qed.

Lemma readonly_get_sim_detail (sim_type detail : string) :
  readonly (_get_sim_detail sim_type detail).
Proof.
  unfold _get_sim_detail.
  apply readonly_bind; [apply readonly_get_sim_info_path_in_xml|intros ?].
  readonly_steps.
Qed.

Lemma readonly_get_sim_carrier (sim_element : _Element) :
  readonly (get_sim_carrier sim_element).
Proof. unfold get_sim_carrier. readonly_steps. Qed.

Lemma readonly_operator_loop (l : list _Element) (iccid imsi : string)
    (apn : option string) :
  readonly (operator_loop l iccid imsi apn).
Proof.
  induction l as [|element l IH]; cbn [operator_loop].
  - apply readonly_ret.
  - apply readonly_bind; [apply readonly_lift|intros ok].
    destruct ok; [|exact IH].
    apply readonly_bind; [apply readonly_get_sim_carrier|intros carrier].
    apply readonly_bind.
    { destruct apn; [apply readonly_ret|apply readonly_get_sim_detail]. }
    intros apn'.
    repeat (apply readonly_bind; [apply readonly_get_sim_detail|intros ?]).
    apply readonly_ret.
Qed.

Lemma readonly_parse_sim_info (iccid imsi : object) :
  readonly (parse_sim_info iccid imsi).
Proof.
  unfold parse_sim_info.
  destruct (is_None iccid || negb (isinstance_str iccid) || eq_empty_str iccid);
    [readonly_steps|].
  destruct (is_None imsi || negb (isinstance_str imsi) || eq_empty_str imsi);
    [readonly_steps|].
  apply readonly_bind; [apply readonly_self_root|intros r].
  apply readonly_bind; [apply readonly_lift|intros [[is_detail_info sim_info] apn]].
  apply readonly_bind; [apply readonly_self_root|intros r'].
  apply readonly_bind; [apply readonly_lift|intros sim_elements].
  apply readonly_bind; [apply readonly_operator_loop|intros found].
  destruct found; readonly_steps.
Qed.

(** What [readonly] says of a run from any state. *)
Lemma readonly_run A (m : M A) (s : state) :
  readonly m ->
  exists w, exec m s = logged s w
            /\ forall log,
                 eval m (mkState (self s) (default_cfg_site s) log) = eval m s.
Proof.
  intros Hm. destruct (Hm (self s) (default_cfg_site s)) as (o & w & Hrun).
  exists w. unfold exec, eval, logged. split.
  - destruct s as [p site log]. simpl in *. now rewrite Hrun.
  - intros log. destruct s as [p site log0]. simpl in *. now rewrite !Hrun.
Qed.

Lemma run_calls_readonly (calls : list (object * object)) (s : state) :
  exists w, snd (run_calls calls s) = logged s w.
Proof.
  revert s. induction calls as [|[iccid imsi] calls IH]; intros s.
  - exists []. destruct s. unfold logged. simpl. now rewrite app_nil_r.
  - cbn [run_calls].
    destruct (readonly_run s (readonly_parse_sim_info iccid imsi))
      as (w & Hexec & _).
    unfold exec in Hexec.
    destruct (parse_sim_info iccid imsi s) as [o s'] eqn:E. simpl in Hexec.
    destruct (IH s') as (w' & Hrest).
    destruct (run_calls calls s') as [os s''] eqn:E'. simpl in *.
    exists (w ++ w'). subst. unfold logged. simpl. now rewrite app_assoc.
Qed.

End ReadonlyMethods.

(* ================================================================== *)
(** ** The two loops *)

Section Loops.

Variables iccid imsi : string.

Lemma get_sim_info_detail_returns (element : _Element) (path : string) :
  exists v, _get_sim_info_detail element path = Return v.
Proof.
  unfold _get_sim_info_detail.
  destruct (find element path); simpl; eauto.
Qed.

Lemma get_sim_detail_returns (s : state) (sim_type detail : string) :
  _get_sim_detail sim_type detail s
  = (Return
       (findtext (root (self s))
          (path_join
             (path_join (sim_capability_xml_file_name (self s))
                ["Operator"; sim_type])
             [detail])), s).
Proof. reflexivity. Qed.

Lemma select_nil (steps : list string) : select steps [] = [].
Proof. induction steps as [|t steps IH]; [reflexivity|exact IH]. Qed.

(** Nothing is found under a comment or a processing instruction. *)
Lemma find_not_element (e : _Element) (path : string) :
  is_element e = false -> find e path = None.
Proof.
  intros H. unfold find, iterfind.
  pose proof (split_not_nil "/" path) as Hn.
  destruct (split "/" path) as [|t steps]; [contradiction|].
  cbn [select flat_map]. unfold iterchildren.
  destruct e; [discriminate| |]; cbn [children filter app];
    now rewrite select_nil.
Qed.

(** [validate] returns only for elements. *)
Lemma validate_is_element (e : _Element) (b : bool) :
  validate e iccid imsi = Return b -> is_element e = true.
Proof.
  destruct (is_element e) eqn:He; [reflexivity|].
  unfold validate. now rewrite (find_not_element _ _ He).
Qed.

Lemma get_sim_carrier_returns (s : state) (element : _Element) :
  is_element element = true ->
  get_sim_carrier element s
  = (Return (if str_in "Amarisoft" (tag element)
             then match default_cfg_site s with
                  | Some site => ("Amarisoft_" ++ site)%string
                  | None => tag element
                  end
             else tag element), s).
Proof.
  intros He. unfold get_sim_carrier, bind, get_site, lift, in_tag, ret.
  now rewrite He.
Qed.

(** The detail loop, record by record. *)
Lemma detail_loop_skip (uicc : _Element) (l : list _Element) :
  detail_skipped iccid uicc ->
  detail_loop (uicc :: l) iccid = detail_loop l iccid.
Proof.
  intros (t & Ht & Hin). cbn [detail_loop]. rewrite Ht. simpl.
  now rewrite Hin.
Qed.

Lemma detail_loop_unmatched (l : list _Element) :
  Forall (detail_skipped iccid) l ->
  detail_loop l iccid = Return (false, [], None).
Proof.
  induction 1 as [|uicc l Hs _ IH]; [reflexivity|].
  now rewrite detail_loop_skip.
Qed.

Lemma detail_loop_matched (l : list _Element) (uicc : _Element) :
  detail_matched iccid l uicc ->
  exists apn d_iccid d_imsi d_mcc d_mnc d_tel d_pin d_puk d_smsc,
    _get_sim_info_detail uicc "apn" = Return apn
    /\ _get_sim_info_detail uicc "iccid" = Return d_iccid
    /\ _get_sim_info_detail uicc "imsi" = Return d_imsi
    /\ _get_sim_info_detail uicc "mcc" = Return d_mcc
    /\ _get_sim_info_detail uicc "mnc" = Return d_mnc
    /\ _get_sim_info_detail uicc "tel" = Return d_tel
    /\ _get_sim_info_detail uicc "pin" = Return d_pin
    /\ _get_sim_info_detail uicc "puk" = Return d_puk
    /\ _get_sim_info_detail uicc "smsc" = Return d_smsc
    /\ detail_loop l iccid
       = Return (true,
                 [d_iccid; d_imsi; d_mcc; d_mnc; d_tel; d_pin; d_puk; d_smsc],
                 apn).
Proof.
  induction 1 as [uicc l t Ht Hin|skipped l uicc Hs _ IH].
  - destruct (get_sim_info_detail_returns uicc "apn") as [apn Ha].
    destruct (get_sim_info_detail_returns uicc "iccid") as [d1 H1].
    destruct (get_sim_info_detail_returns uicc "imsi") as [d2 H2].
    destruct (get_sim_info_detail_returns uicc "mcc") as [d3 H3].
    destruct (get_sim_info_detail_returns uicc "mnc") as [d4 H4].
    destruct (get_sim_info_detail_returns uicc "tel") as [d5 H5].
    destruct (get_sim_info_detail_returns uicc "pin") as [d6 H6].
    destruct (get_sim_info_detail_returns uicc "puk") as [d7 H7].
    destruct (get_sim_info_detail_returns uicc "smsc") as [d8 H8].
    exists apn, d1, d2, d3, d4, d5, d6, d7, d8.
    repeat (split; [assumption|]).
    cbn [detail_loop]. rewrite Ht. cbn [obind in_of]. rewrite Hin.
    rewrite Ha, H1, H2, H3, H4, H5, H6, H7, H8. reflexivity.
  - rewrite detail_loop_skip by assumption. exact IH.
Qed.

(** What the detail loop returned tells how it went. *)
Lemma detail_loop_inv (l : list _Element) (is_detail_info : bool)
    (sim_info : list (option string)) (apn : option string) :
  detail_loop l iccid = Return (is_detail_info, sim_info, apn) ->
  if is_detail_info
  then exists uicc, detail_matched iccid l uicc
  else Forall (detail_skipped iccid) l /\ sim_info = [] /\ apn = None.
Proof.
  induction l as [|uicc l IH]; cbn [detail_loop].
  - intros H. inversion H. auto.
  - destruct (text_of (find uicc "iccid")) as [[t|]|e] eqn:Ht;
      cbn [obind in_of]; try discriminate.
    destruct (str_in t iccid) eqn:Hin.
    + intros H.
      assert (is_detail_info = true) as ->.
      { destruct (_get_sim_info_detail uicc "apn"); [|discriminate].
        destruct (_get_sim_info_detail uicc "iccid"); [|discriminate].
        destruct (_get_sim_info_detail uicc "imsi"); [|discriminate].
        destruct (_get_sim_info_detail uicc "mcc"); [|discriminate].
        destruct (_get_sim_info_detail uicc "mnc"); [|discriminate].
        destruct (_get_sim_info_detail uicc "tel"); [|discriminate].
        destruct (_get_sim_info_detail uicc "pin"); [|discriminate].
        destruct (_get_sim_info_detail uicc "puk"); [|discriminate].
        destruct (_get_sim_info_detail uicc "smsc"); [|discriminate].
        simpl in H. now inversion H. }
      exists uicc. eapply detail_here; eassumption.
    + intros H. specialize (IH H).
      assert (Hs : detail_skipped iccid uicc) by (exists t; auto).
      destruct is_detail_info.
      * destruct IH as [u Hu]. exists u. now apply detail_later.
      * destruct IH as (Hall & -> & ->). auto.
Qed.

(** The operator loop, record by record. *)
Lemma operator_loop_skip (element : _Element) (l : list _Element)
    (apn : option string) (s : state) :
  validate element iccid imsi = Return false ->
  operator_loop (element :: l) iccid imsi apn s
  = operator_loop l iccid imsi apn s.
Proof.
  intros H. cbn [operator_loop]. unfold bind at 1, lift. now rewrite H.
Qed.

Lemma operator_loop_unmatched (l : list _Element) (apn : option string)
    (s : state) :
  Forall (fun element => validate element iccid imsi = Return false) l ->
  operator_loop l iccid imsi apn s = (Return None, s).
Proof.
  induction 1 as [|element l Hv _ IH]; [reflexivity|].
  now rewrite operator_loop_skip.
Qed.

Lemma operator_loop_matched (l : list _Element) (element : _Element)
    (apn : option string) (s : state) :
  matched iccid imsi l element ->
  exists carrier operator_apn apn_tcp pdp band,
    eval (get_sim_carrier element) s = Return carrier
    /\ eval (get_sim_apn carrier) s = Return operator_apn
    /\ eval (get_sim_apn_tcp carrier) s = Return apn_tcp
    /\ eval (get_sim_pdp carrier) s = Return pdp
    /\ eval (get_rf_band carrier) s = Return band
    /\ operator_loop l iccid imsi apn s
       = (Return (Some [Some carrier;
                        match apn with None => operator_apn | Some _ => apn end;
                        apn_tcp; pdp; band]), s).
Proof.
  induction 1 as [element l Hv|skipped l element Hv _ IH].
  - pose proof (@get_sim_carrier_returns s element
                  (@validate_is_element element true Hv)) as Hc.
    unfold eval, get_sim_apn, get_sim_apn_tcp, get_sim_pdp, get_rf_band.
    do 5 eexists. rewrite Hc.
    repeat (split; [rewrite ?get_sim_detail_returns; reflexivity|]).
    cbn [operator_loop]. unfold bind at 1, lift. rewrite Hv.
    unfold bind at 1. rewrite Hc. destruct apn; reflexivity.
  - rewrite operator_loop_skip by assumption. exact IH.
Qed.

Lemma operator_loop_inv (l : list _Element) (apn : option string)
    (s s' : state) (found : option (list (option string))) :
  operator_loop l iccid imsi apn s = (Return found, s') ->
  s' = s
  /\ match found with
     | Some _ => exists element, matched iccid imsi l element
     | None =>
         Forall (fun element => validate element iccid imsi = Return false) l
     end.
Proof.
  induction l as [|element l IH]; cbn [operator_loop].
  - intros H. inversion H. auto.
  - unfold bind at 1, lift.
    destruct (validate element iccid imsi) as [[|]|e] eqn:Hv;
      try discriminate.
    + intros H.
      assert (Hm : matched iccid imsi (element :: l) element)
        by now apply matched_here.
      destruct (operator_loop_matched apn s Hm)
        as (c & a & t & p & b & _ & _ & _ & _ & _ & Hrun).
      cbn [operator_loop] in Hrun. unfold bind at 1, lift in Hrun.
      rewrite Hv in Hrun. rewrite Hrun in H. inversion H. subst.
      split; [reflexivity|]. exists element. now apply matched_here.
    + intros H. destruct (IH H) as [-> Hrest]. split; [reflexivity|].
      destruct found as [t|].
      * destruct Hrest as [x Hx]. exists x. now apply matched_later.
      * now constructor.
Qed.

(** The record the operator loop stops at is unique. *)
Lemma matched_unique (l : list _Element) (e1 e2 : _Element) :
  matched iccid imsi l e1 -> matched iccid imsi l e2 -> e1 = e2.
Proof.
  induction 1 as [e1 l Hv|skipped l e1 Hv _ IH]; intros H2;
    inversion H2; subst; try reflexivity; try congruence.
  now apply IH.
Qed.

(** [matched] as a cut of the list. *)
Lemma matched_split (l : list _Element) (element : _Element) :
  matched iccid imsi l element <->
  exists before after,
    l = before ++ element :: after
    /\ Forall (fun x => validate x iccid imsi = Return false) before
    /\ validate element iccid imsi = Return true.
Proof.
  split.
  - induction 1 as [element l Hv|skipped l element Hv _ IH].
    + exists [], l. auto.
    + destruct IH as (before & after & -> & Hall & Hlast).
      exists (skipped :: before), after. auto.
  - intros (before & after & -> & Hall & Hlast).
    induction Hall as [|x before Hx _ IH]; simpl.
    + now apply matched_here.
    + now apply matched_later.
Qed.

Lemma matched_is_element (l : list _Element) (element : _Element) :
  matched iccid imsi l element -> is_element element = true.
Proof.
  induction 1 as [element l Hv|skipped l element Hv _ IH]; [|exact IH].
  exact (@validate_is_element element true Hv).
Qed.

Lemma matched_In (l : list _Element) (element : _Element) :
  matched iccid imsi l element -> In element l.
Proof. induction 1; simpl; auto. Qed.

End Loops.

(* ================================================================== *)
(** ** [parse_sim_info], step by step *)

Section ParseSimInfo.

Lemma truthy_guard (o : object) :
  is_None o || negb (isinstance_str o) || eq_empty_str o = false ->
  exists t, o = Str t /\ truthy t = true.
Proof.
  destruct o as [|t|n|b]; simpl; try discriminate.
  destruct t; [discriminate|]. intros _. eauto.
Qed.

Lemma guard_of_truthy (t : string) :
  truthy t = true ->
  is_None (Str t) || negb (isinstance_str (Str t)) || eq_empty_str (Str t)
  = false.
Proof. destruct t; [discriminate|reflexivity]. Qed.

(** Past the two parameter checks the call is the two loops and
    [SimInfo._make]. *)
Lemma parse_sim_info_str (iccid imsi : string) (s : state) :
  truthy iccid = true -> truthy imsi = true ->
  parse_sim_info (Str iccid) (Str imsi) s =
  match detail_loop (findall (root (self s)) "simdb/uicc") iccid with
  | Raise e => (Raise e, s)
  | Return (is_detail_info, sim_info, apn) =>
      match iter_of (find (root (self s)) "simdb/Operator") with
      | Raise e => (Raise e, s)
      | Return sim_elements =>
          match operator_loop sim_elements iccid imsi apn s with
          | (Raise e, s') => (Raise e, s')
          | (Return None, s') =>
              (Return None, logged s' ["Unable to parse Sim Information"])
          | (Return (Some sim_tuple), s') =>
              match SimInfo_make
                      (sim_tuple
                       ++ (if is_detail_info then sim_info else repeat None 8))
              with
              | Return info => (Return (Some info), s')
              | Raise e => (Raise e, s')
              end
          end
      end
  end.
Proof.
  intros Hi Hm. unfold parse_sim_info.
  rewrite (guard_of_truthy _ Hi), (guard_of_truthy _ Hm).
  cbn [str_of]. unfold bind at 1. unfold self_root at 1. cbn [fst snd].
  unfold bind at 1. unfold lift at 1.
  destruct (detail_loop (findall (root (self s)) "simdb/uicc") iccid)
    as [[[is_detail_info sim_info] apn]|e]; [|reflexivity].
  unfold bind at 1. unfold self_root at 1.
  unfold bind at 1. unfold lift at 1.
  destruct (iter_of (find (root (self s)) "simdb/Operator"))
    as [sim_elements|e]; [|reflexivity].
  unfold bind at 1.
  destruct (operator_loop sim_elements iccid imsi apn s) as [[found|e] s'];
    [|reflexivity].
  destruct found as [sim_tuple|]; [|reflexivity].
  unfold bind at 1. unfold lift at 1.
  destruct (SimInfo_make _); reflexivity.
Qed.

(** A call that went as [resolves] says returns the [SimInfo]. *)
Lemma parse_sim_info_resolves (iccid imsi : string) (s : state)
    (info : SimInfo) :
  resolves s iccid imsi info ->
  parse_sim_info (Str iccid) (Str imsi) s = (Return (Some info), s).
Proof.
  intros [b sim_info apn operator element carrier oapn apn_tcp pdp band
            Hi Hm Hd Hop Hmatch Hc Ha Ht Hp Hb Hmake].
  rewrite parse_sim_info_str by assumption.
  rewrite Hd, Hop. cbn [iter_of].
  destruct (operator_loop_matched apn s Hmatch)
    as (c' & a' & t' & p' & b' & Hc' & Ha' & Ht' & Hp' & Hb' & Hrun).
  rewrite Hrun.
  assert (c' = carrier) as -> by congruence.
  assert (a' = oapn) as -> by congruence.
  assert (t' = apn_tcp) as -> by congruence.
  assert (p' = pdp) as -> by congruence.
  assert (b' = band) as -> by congruence.
  now rewrite Hmake.
Qed.

(** A call that returns a [SimInfo] went as [resolves] says: both
    parameters are non-empty strings and the state is as before. *)
Lemma parse_sim_info_success (iccid imsi : object) (s s' : state)
    (info : SimInfo) :
  parse_sim_info iccid imsi s = (Return (Some info), s') ->
  s' = s
  /\ exists i m, iccid = Str i /\ imsi = Str m /\ resolves s i m info.
Proof.
  intros H.
  destruct (is_None iccid || negb (isinstance_str iccid) || eq_empty_str iccid)
    eqn:Gi.
  { unfold parse_sim_info in H. rewrite Gi in H. discriminate. }
  destruct (is_None imsi || negb (isinstance_str imsi) || eq_empty_str imsi)
    eqn:Gm.
  { unfold parse_sim_info in H. rewrite Gi, Gm in H. discriminate. }
  destruct (truthy_guard _ Gi) as (i & -> & Hi).
  destruct (truthy_guard _ Gm) as (m & -> & Hm).
  rewrite parse_sim_info_str in H by assumption.
  destruct (detail_loop (findall (root (self s)) "simdb/uicc") i)
    as [[[b sim_info] apn]|e] eqn:Hd; [|discriminate].
  destruct (find (root (self s)) "simdb/Operator") as [operator|] eqn:Hop;
    [|discriminate].
  cbn [iter_of] in H.
  destruct (operator_loop (children operator) i m apn s) as [[found|e] s1]
    eqn:Hloop; [|discriminate].
  destruct (operator_loop_inv _ _ _ _ _ Hloop) as [-> Hfound].
  destruct found as [sim_tuple|]; [|discriminate].
  destruct Hfound as [element Hmatch].
  destruct (operator_loop_matched apn s Hmatch)
    as (c & a & t & p & bd & Hc & Ha & Ht & Hp & Hb & Hrun).
  rewrite Hrun in Hloop. inversion Hloop; subst sim_tuple.
  destruct (SimInfo_make _) as [info'|e] eqn:Hmake; [|discriminate].
  inversion H; subst. split; [reflexivity|].
  exists i, m. repeat split; try reflexivity.
  eapply resolves_intro; eassumption.
Qed.

(** The items that follow the five settings are eight in number, so
    [SimInfo._make] gets thirteen. *)
Lemma detail_loop_length (l : list _Element) (iccid : string)
    (is_detail_info : bool) (sim_info : list (option string))
    (apn : option string) :
  detail_loop l iccid = Return (is_detail_info, sim_info, apn) ->
  length (if is_detail_info then sim_info else repeat None 8) = 8.
Proof.
  intros H. pose proof (detail_loop_inv _ _ H) as Hinv.
  destruct is_detail_info; [|reflexivity].
  destruct Hinv as [uicc Hu].
  destruct (detail_loop_matched Hu)
    as (a & d1 & d2 & d3 & d4 & d5 & d6 & d7 & d8 & _ & _ & _ & _ & _ & _
        & _ & _ & _ & Hrun).
  rewrite Hrun in H. inversion H. reflexivity.
Qed.

Lemma SimInfo_make_13 (a b c d e : option string) (l : list (option string)) :
  length l = 8 ->
  exists info, SimInfo_make ([a; b; c; d; e] ++ l) = Return info
               /\ Carrier info = a /\ APN info = b /\ APN_TCP info = c
               /\ PDP info = d /\ Band info = e
               /\ [Iccid info; Imsi info; Mcc info; Mnc info; Tel info;
                   Pin info; Puk info; Smsc info] = l.
Proof.
  intros H.
  do 8 (destruct l as [|? l]; [discriminate|]).
  destruct l; [|discriminate].
  eexists. simpl. repeat split.
Qed.

End ParseSimInfo.

(* ================================================================== *)
(** ** [validate] and the lookup by carrier name *)

Section Validate.

Lemma existsb_occurs (l : list string) (s : string) :
  existsb (fun p => str_in p s) l = true
  <-> exists p, In p l /\ occurs_in p s.
Proof.
  rewrite existsb_exists. split; intros (p & Hin & H); exists p; split;
    try assumption; now apply str_in_occurs.
Qed.

Lemma truthy_iff (s : string) : truthy s = true <-> s <> EmptyString.
Proof. destruct s; simpl; split; congruence. Qed.

(** [validate] returns [True] exactly for a record one of whose ICCID
    entries occurs in [iccid] and, for a non-empty [imsi], one of whose
    IMSI entries occurs in [imsi]. *)
Lemma validate_true_iff (element : _Element) (iccid imsi : string) :
  validate element iccid imsi = Return true
  <-> entry_occurs element "ICCID_prefix" iccid
      /\ (imsi <> EmptyString -> entry_occurs element "IMSI_prefixes" imsi).
Proof.
  unfold validate, entry_occurs. split.
  - destruct (text_of (find element "ICCID_prefix")) as [[t|]|e];
      cbn [obind split_of]; try discriminate.
    destruct (existsb _ (split "," t)) eqn:Hi; [|discriminate].
    apply existsb_occurs in Hi as (p & Hp & Hocc).
    intros H. split; [now exists t, p|].
    intros Hne. apply truthy_iff in Hne. rewrite Hne in H.
    destruct (text_of (find element "IMSI_prefixes")) as [[t'|]|e];
      cbn [obind split_of] in H; try discriminate.
    destruct (existsb _ (split "," t')) eqn:Hm; [|discriminate].
    apply existsb_occurs in Hm as (q & Hq & Hocc').
    now exists t', q.
  - intros [(t & p & Ht & Hp & Hocc) Himsi].
    rewrite Ht. cbn [obind split_of].
    assert (Hi : existsb (fun c => str_in c iccid) (split "," t) = true)
      by (apply existsb_occurs; eauto).
    rewrite Hi. destruct (truthy imsi) eqn:Hne; [|reflexivity].
    apply truthy_iff in Hne.
    destruct (Himsi Hne) as (t' & q & Ht' & Hq & Hocc').
    rewrite Ht'. cbn [obind split_of].
    assert (Hm : existsb (fun c => str_in c imsi) (split "," t') = true)
      by (apply existsb_occurs; eauto).
    now rewrite Hm.
Qed.

(** A record none of whose ICCID entries occurs in [iccid] is rejected,
    whatever [imsi] is. *)
Lemma validate_no_iccid_entry (element : _Element) (iccid imsi : string) :
  no_entry_occurs element "ICCID_prefix" iccid ->
  validate element iccid imsi = Return false.
Proof.
  intros (t & Ht & Hnone). unfold validate. rewrite Ht.
  cbn [obind split_of].
  destruct (existsb _ (split "," t)) eqn:Hi; [|reflexivity].
  apply existsb_exists in Hi as (p & Hp & Hin).
  rewrite (Hnone p Hp) in Hin. discriminate.
Qed.

End Validate.

Section Lookup.

Lemma find_child (element : _Element) (field : string) :
  no_slash field = true ->
  find element field = hd_error (iterchildren field element).
Proof.
  intros H. unfold find, iterfind. rewrite (split_no_slash _ H).
  cbn [select flat_map]. now rewrite app_nil_r.
Qed.

Lemma hd_error_app_some A (l l' : list A) (x : A) :
  hd_error l = Some x -> hd_error (l ++ l') = Some x.
Proof. destruct l; [discriminate|auto]. Qed.

Lemma hd_error_flat_map A B (f : A -> list B) (l : list A) (a : A) (b : B) :
  hd_error l = Some a -> hd_error (f a) = Some b ->
  hd_error (flat_map f l) = Some b.
Proof.
  destruct l as [|a' l]; [discriminate|]. intros H Hb. inversion H; subst.
  cbn [flat_map]. now apply hd_error_app_some.
Qed.

(** A field the record has is the one the lookup by its name finds. *)
Lemma get_sim_detail_own_field (s : state) (element : _Element)
    (field : string) (v : string) :
  names_itself s element ->
  no_slash field = true ->
  findtext element field = Some v ->
  eval (_get_sim_detail (tag element) field) s = Return (Some v).
Proof.
  intros (Hname & Hplain & _ & operator & Hop & Hfirst) Hfield Hv.
  unfold eval. rewrite get_sim_detail_returns. cbn [fst]. f_equal.
  rewrite Hname. unfold findtext in *.
  destruct (find element field) as [x|] eqn:Hx; [|discriminate].
  rewrite find_child in Hx by assumption.
  assert (Hfind : find (root (self s))
                    (path_join (path_join "simdb" ["Operator"; tag element])
                       [field]) = Some x).
  { unfold find, iterfind. rewrite path_join_operator by assumption.
    cbn [select]. unfold find, iterfind in Hop.
    change (split "/" "simdb/Operator") with ["simdb"; "Operator"] in Hop.
    cbn [select] in Hop.
    eapply hd_error_flat_map; [|exact Hx].
    eapply hd_error_flat_map; [exact Hop|exact Hfirst]. }
  now rewrite Hfind.
Qed.

(** The [simdb/Operator] elements, read off the document. *)
Lemma findall_operator (r : _Element) :
  findall r "simdb/Operator"
  = flat_map (iterchildren "Operator") (iterchildren "simdb" r).
Proof.
  unfold findall, iterfind.
  change (split "/" "simdb/Operator") with ["simdb"; "Operator"].
  cbn [select flat_map]. now rewrite app_nil_r.
Qed.

(** On an instance [__init__] made, a getter asked for a plain name goes
    through the document as [first_setting] does. *)
Lemma get_sim_detail_first_setting (s : state) (sim_type detail : string) :
  sim_capability_xml_file_name (self s) = "simdb" ->
  plain_name sim_type = true ->
  no_slash detail = true ->
  eval (_get_sim_detail sim_type detail) s
  = Return (first_setting (root (self s)) sim_type detail).
Proof.
  intros Hname Hplain Hdetail.
  unfold eval. rewrite get_sim_detail_returns. cbn [fst]. f_equal.
  rewrite Hname. unfold findtext, find, iterfind, first_setting.
  rewrite path_join_operator by assumption.
  cbn [select flat_map]. now rewrite app_nil_r.
Qed.

End Lookup.

(* ================================================================== *)
(** ** The parameter checks *)

Section ParameterChecks.

Lemma guard_of_invalid (o : object) :
  o = None_ \/ isinstance_str o = false \/ o = Str EmptyString ->
  is_None o || negb (isinstance_str o) || eq_empty_str o = true.
Proof.
  intros [->|[H| ->]]; try reflexivity.
  rewrite H. simpl. now rewrite orb_true_r.
Qed.

Lemma iccid_guard_returns_none (iccid imsi : object) (s : state) :
  is_None iccid || negb (isinstance_str iccid) || eq_empty_str iccid = true ->
  parse_sim_info iccid imsi s
  = (Return None, logged s ["No ICCID from current device"]).
Proof. intros H. unfold parse_sim_info. now rewrite H. Qed.

(** C8: a call whose [iccid] is [None], not a string, or the empty string
    returns [None] without raising, and [swilog] receives the one warning
    "No ICCID from current device"; [imsi] and the database play no part. *)
Theorem parse_sim_info_without_iccid (iccid imsi : object) (s : state) :
  iccid = None_ \/ isinstance_str iccid = false \/ iccid = Str EmptyString ->
  parse_sim_info iccid imsi s
  = (Return None, logged s ["No ICCID from current device"]).
Proof.
  intros H. apply iccid_guard_returns_none.
  now apply guard_of_invalid.
Qed.

Lemma parse_sim_info_without_iccid_witness :
  (Int 42 = None_ \/ isinstance_str (Int 42) = false
   \/ Int 42 = Str EmptyString)
  /\ parse_sim_info (Int 42) (Str "302220000000001") Sample.s_telus
     = (Return None,
        logged Sample.s_telus ["No ICCID from current device"]).
Proof.
  assert (H : Int 42 = None_ \/ isinstance_str (Int 42) = false
              \/ Int 42 = Str EmptyString) by (right; left; reflexivity).
  split; [exact H|].
  exact (@parse_sim_info_without_iccid (Int 42) (Str "302220000000001")
           Sample.s_telus H).
Defined.

(** C1, as the code has it: for a non-empty [iccid], a call whose [imsi] is
    [None], not a string, or the empty string returns [None] with the
    warning "No IMSI from current device", whatever the database holds.
    Only [validate] itself skips the IMSI condition for an empty [imsi]: it
    then accepts a record exactly when one of its ICCID entries occurs in
    [iccid]. *)
Theorem parse_sim_info_without_imsi (iccid : string) (imsi : object)
    (s : state) :
  iccid <> EmptyString ->
  imsi = None_ \/ isinstance_str imsi = false \/ imsi = Str EmptyString ->
  parse_sim_info (Str iccid) imsi s
  = (Return None, logged s ["No IMSI from current device"])
  /\ forall element,
       validate element iccid EmptyString = Return true
       <-> entry_occurs element "ICCID_prefix" iccid.
Proof.
  intros Hi Hm. split.
  - unfold parse_sim_info. apply truthy_iff in Hi.
    now rewrite (guard_of_truthy _ Hi), (guard_of_invalid Hm).
  - intros element. rewrite validate_true_iff. split; [tauto|].
    intros H. split; [exact H|]. intros Hne. now contradict Hne.
Qed.

Lemma parse_sim_info_without_imsi_witness :
  "8930212345678" <> EmptyString
  /\ parse_sim_info (Str "8930212345678") (Str EmptyString) Sample.s_telus
     = (Return None, logged Sample.s_telus ["No IMSI from current device"]).
Proof.
  assert (Hi : "8930212345678" <> EmptyString) by discriminate.
  split; [exact Hi|].
  apply (@parse_sim_info_without_imsi "8930212345678" (Str EmptyString)
           Sample.s_telus Hi).
  right; right; reflexivity.
Defined.

(** C1 as stated fails: the Telus record accepts the ICCID once the IMSI
    condition is skipped, yet the call with the empty IMSI returns [None]
    and no [SimInfo]. *)
Lemma empty_imsi_returns_none :
  validate Sample.telus "8930212345678" EmptyString = Return true
  /\ eval (parse_sim_info (Str "8930212345678") (Str EmptyString))
       Sample.s_telus
     = Return None
  /\ ~ exists info,
         eval (parse_sim_info (Str "8930212345678") (Str EmptyString))
           Sample.s_telus
         = Return (Some info).
Proof.
  split; [reflexivity|]. split; [reflexivity|].
  intros [info H]. vm_compute in H. discriminate.
Qed.

End ParameterChecks.

(* ================================================================== *)
(** ** The database is only read *)

Section ReadOnlyDatabase.

(** C10: whatever calls were made on an instance, its parsed document (and
    its other attribute) is the one [__init__] left, the site is untouched,
    and a lookup made afterwards returns what the same lookup returns
    before them. *)
Theorem database_never_mutated (calls : list (object * object)) (s : state) :
  self (snd (run_calls calls s)) = self s
  /\ default_cfg_site (snd (run_calls calls s)) = default_cfg_site s
  /\ forall iccid imsi,
       eval (parse_sim_info iccid imsi) (snd (run_calls calls s))
       = eval (parse_sim_info iccid imsi) s.
Proof.
  destruct (run_calls_readonly calls s) as [w Hw]. rewrite Hw.
  split; [reflexivity|]. split; [reflexivity|].
  intros iccid imsi.
  destruct (readonly_run s (readonly_parse_sim_info iccid imsi))
    as (_ & _ & Hlog).
  exact (Hlog (swilog s ++ w)).
Qed.

End ReadOnlyDatabase.

(* ================================================================== *)
(** ** The operator scan *)

Section OperatorScan.

(** Where the detail loop returns and every child node of
    [simdb/Operator] is a record with an [ICCID_prefix] text: when the
    ICCID occurs in no ICCID entry of any of them, the call returns [None]
    and [swilog] receives one warning, whether the detail loop stopped at
    a record or went through them all. *)
Lemma no_operator_match_returns_none (s : state) (iccid : string)
    (imsi : object) (operator : _Element)
    (detail : bool * list (option string) * option string) :
  find (root (self s)) "simdb/Operator" = Some operator ->
  Forall (fun element => no_entry_occurs element "ICCID_prefix" iccid)
    (children operator) ->
  detail_loop (findall (root (self s)) "simdb/uicc") iccid = Return detail ->
  exists msg,
    parse_sim_info (Str iccid) imsi s = (Return None, logged s [msg]).
Proof.
  intros Hop Hnone Hdetail.
  destruct (truthy iccid) eqn:Hi.
  2:{ destruct iccid; [|discriminate]. eexists.
      apply iccid_guard_returns_none. reflexivity. }
  destruct (is_None imsi || negb (isinstance_str imsi) || eq_empty_str imsi)
    eqn:Gm.
  { eexists. unfold parse_sim_info.
    now rewrite (guard_of_truthy _ Hi), Gm. }
  destruct (truthy_guard _ Gm) as (m & -> & Hm).
  exists "Unable to parse Sim Information".
  rewrite parse_sim_info_str by assumption.
  rewrite Hdetail, Hop. destruct detail as [[b sim_info] apn].
  cbn [iter_of]. rewrite operator_loop_unmatched; [reflexivity|].
  eapply Forall_impl; [|exact Hnone].
  intros element H. now apply validate_no_iccid_entry.
Qed.

Lemma no_operator_match_returns_none_witness :
  detail_loop (findall (root (self Sample.s_bell)) "simdb/uicc")
    "8930212345678"
  = Return (true,
            [Some "8930212345"; Some "302220000000001"; None; None; None;
             None; None; None],
            Some "private.apn")
  /\ exists msg,
       parse_sim_info (Str "8930212345678") (Str "302220000000001")
         Sample.s_bell
       = (Return None, logged Sample.s_bell [msg]).
Proof.
  split; [reflexivity|].
  apply (@no_operator_match_returns_none Sample.s_bell "8930212345678"
           (Str "302220000000001") (Element "Operator" None [Sample.bell])
           (true,
            [Some "8930212345"; Some "302220000000001"; None; None; None;
             None; None; None],
            Some "private.apn")).
  - reflexivity.
  - constructor; [|constructor].
    exists "89301". split; [reflexivity|].
    intros p [<-|[]]. reflexivity.
  - reflexivity.
Defined.

End OperatorScan.

(* ================================================================== *)
(** ** What a returned [SimInfo] holds *)

Section Fields.

Lemma eval_run A (m : M A) (s : state) (o : outcome A) :
  eval m s = o -> exists s', m s = (o, s').
Proof. unfold eval. destruct (m s) as [o' s']. simpl. intros <-. eauto. Qed.

(** The fields of the [SimInfo] of a call that went as [resolves] says. *)
Lemma resolves_fields (s : state) (iccid imsi : string) (info : SimInfo) :
  resolves s iccid imsi info ->
  exists is_detail_info sim_info apn operator element carrier operator_apn,
    detail_loop (findall (root (self s)) "simdb/uicc") iccid
      = Return (is_detail_info, sim_info, apn)
    /\ find (root (self s)) "simdb/Operator" = Some operator
    /\ matched iccid imsi (children operator) element
    /\ eval (get_sim_carrier element) s = Return carrier
    /\ eval (get_sim_apn carrier) s = Return operator_apn
    /\ eval (get_sim_apn_tcp carrier) s = Return (APN_TCP info)
    /\ eval (get_sim_pdp carrier) s = Return (PDP info)
    /\ eval (get_rf_band carrier) s = Return (Band info)
    /\ Carrier info = Some carrier
    /\ APN info = match apn with None => operator_apn | Some _ => apn end
    /\ [Iccid info; Imsi info; Mcc info; Mnc info; Tel info; Pin info;
        Puk info; Smsc info]
       = (if is_detail_info then sim_info else repeat None 8).
Proof.
  intros [b sim_info apn operator element carrier oapn apn_tcp pdp band
            Hi Hm Hd Hop Hmatch Hc Ha Ht Hp Hb Hmake].
  destruct (SimInfo_make_13 (Some carrier)
              (match apn with None => oapn | Some _ => apn end)
              apn_tcp pdp band _ (detail_loop_length _ _ Hd))
    as (info' & Hmake' & F1 & F2 & F3 & F4 & F5 & F6).
  rewrite Hmake in Hmake'. inversion Hmake'; subst info'.
  exists b, sim_info, apn, operator, element, carrier, oapn.
  rewrite F3, F4, F5. repeat (split; [assumption|]). exact F6.
Qed.

Lemma success_resolves (iccid imsi : object) (s : state) (info : SimInfo) :
  eval (parse_sim_info iccid imsi) s = Return (Some info) ->
  exists i m, iccid = Str i /\ imsi = Str m /\ resolves s i m info.
Proof.
  intros H. apply eval_run in H as [s' H].
  now apply parse_sim_info_success in H as [_ H].
Qed.

Lemma detail_matched_occurs (iccid : string) (l : list _Element)
    (uicc : _Element) :
  detail_matched iccid l uicc ->
  In uicc l
  /\ exists t, text_of (find uicc "iccid") = Return (Some t)
               /\ str_in t iccid = true.
Proof.
  induction 1 as [uicc l t Ht Hin|skipped l uicc Hs _ [IHin IHt]].
  - split; [now left|eauto].
  - split; [now right|exact IHt].
Qed.

End Fields.

(* ================================================================== *)
(** ** Carrier and settings *)

Section CarrierAndSettings.

(** C2, as the code has it: the [Carrier] of a returned [SimInfo] comes
    from the record the operator loop stopped at.  When the tag of that
    record contains "Amarisoft" and a site is configured it is
    "Amarisoft_" followed by the site, whatever else the tag holds; when
    no site is configured, or the tag does not contain "Amarisoft", it is
    the tag. *)
Theorem carrier_of_matched_record (s : state) (iccid imsi : object)
    (info : SimInfo) :
  eval (parse_sim_info iccid imsi) s = Return (Some info) ->
  exists operator element,
    find (root (self s)) "simdb/Operator" = Some operator
    /\ matched (str_of iccid) (str_of imsi) (children operator) element
    /\ (forall site,
          str_in "Amarisoft" (tag element) = true ->
          default_cfg_site s = Some site ->
          Carrier info = Some ("Amarisoft_" ++ site)%string)
    /\ (default_cfg_site s = None -> Carrier info = Some (tag element))
    /\ (str_in "Amarisoft" (tag element) = false ->
        Carrier info = Some (tag element)).
Proof.
  intros H. apply success_resolves in H as (i & m & -> & -> & H).
  apply resolves_fields in H
    as (b & sim_info & apn & operator & element & carrier & oapn & _ & Hop
        & Hmatch & Hc & _ & _ & _ & _ & Hcarrier & _).
  exists operator, element. cbn [str_of].
  split; [exact Hop|]. split; [exact Hmatch|].
  unfold eval in Hc.
  rewrite get_sim_carrier_returns in Hc by exact (matched_is_element Hmatch).
  cbn [fst] in Hc. injection Hc as <-. rewrite Hcarrier.
  split; [|split].
  - intros site Ha Hs. now rewrite Ha, Hs.
  - intros Hs. rewrite Hs. now destruct (str_in "Amarisoft" (tag element)).
  - intros Ha. now rewrite Ha.
Qed.

Lemma carrier_of_matched_record_witness :
  exists info,
    eval (parse_sim_info (Str "8930212345678") (Str "302220000000001"))
      Sample.s_lab
    = Return (Some info)
    /\ Carrier info = Some "Amarisoft_fr".
Proof.
  exists (mkSimInfo (Some "Amarisoft_fr") None None None None
            None None None None None None None None).
  split; [reflexivity|].
  destruct (@carrier_of_matched_record Sample.s_lab (Str "8930212345678")
              (Str "302220000000001")
              (mkSimInfo (Some "Amarisoft_fr") None None None None
                 None None None None None None None None) eq_refl)
    as (operator & element & Hop & Hmatch & Hsite & _).
  injection Hop as <-.
  assert (Hlab : matched "8930212345678" "302220000000001"
                   [Sample.lab] Sample.lab)
    by now apply matched_here.
  rewrite (matched_unique Hmatch Hlab) in Hsite.
  exact (Hsite "fr" eq_refl eq_refl).
Defined.

(** C2 as stated fails: the tag "AmarisoftBox" contains "Amarisoft" and
    the site "fr" is configured, yet the carrier is "Amarisoft_fr" and not
    the tag followed by "_fr". *)
Lemma carrier_is_not_tag_with_site :
  exists info,
    eval (parse_sim_info (Str "8930212345678") (Str "302220000000001"))
      Sample.s_box
    = Return (Some info)
    /\ matched "8930212345678" "302220000000001" [Sample.box] Sample.box
    /\ str_in "Amarisoft" (tag Sample.box) = true
    /\ default_cfg_site Sample.s_box = Some "fr"
    /\ Carrier info = Some "Amarisoft_fr"
    /\ Carrier info <> Some (tag Sample.box ++ "_" ++ "fr")%string.
Proof.
  eexists. split; [reflexivity|].
  split; [now apply matched_here|]. split; [reflexivity|].
  split; [reflexivity|]. split; [reflexivity|]. discriminate.
Qed.




End CarrierAndSettings.

(* ================================================================== *)
(** ** Detail records *)

Section ScanInCall.

(** C6: in [parse_sim_info] the operator scan goes through the child
    nodes of [simdb/Operator] in document order and stops at the first
    record [validate] accepts: that record gives the carrier of the
    [SimInfo], whatever comes after it, and a returned [SimInfo] always
    comes from such a record.  A record is accepted exactly when one of the
    comma-separated entries of its [ICCID_prefix] occurs somewhere in
    [iccid] (not only at its start) and, for a non-empty [imsi], one of
    the entries of its [IMSI_prefixes] occurs somewhere in [imsi]. *)
Theorem operator_scan_first_match (s : state) (iccid imsi : string) :
  (forall element,
     validate element iccid imsi = Return true
     <-> entry_occurs element "ICCID_prefix" iccid
         /\ (imsi <> EmptyString
             -> entry_occurs element "IMSI_prefixes" imsi))
  /\ (forall sub t, str_in sub t = true
                    <-> exists pre post, t = (pre ++ sub ++ post)%string)
  /\ (forall operator before element after,
        iccid <> EmptyString ->
        imsi <> EmptyString ->
        find (root (self s)) "simdb/Operator" = Some operator ->
        children operator = before ++ element :: after ->
        Forall (fun x => validate x iccid imsi = Return false) before ->
        validate element iccid imsi = Return true ->
        (forall result,
           eval (parse_sim_info (Str iccid) (Str imsi)) s = Return result ->
           exists info carrier,
             result = Some info
             /\ eval (get_sim_carrier element) s = Return carrier
             /\ Carrier info = Some carrier)
        /\ (forall detail,
              detail_loop (findall (root (self s)) "simdb/uicc") iccid
              = Return detail ->
              carriers_are_names s ->
              exists info,
                parse_sim_info (Str iccid) (Str imsi) s
                = (Return (Some info), s)))
  /\ (forall info,
        eval (parse_sim_info (Str iccid) (Str imsi)) s = Return (Some info) ->
        exists operator before element after carrier,
          find (root (self s)) "simdb/Operator" = Some operator
          /\ children operator = before ++ element :: after
          /\ Forall (fun x => validate x iccid imsi = Return false) before
          /\ validate element iccid imsi = Return true
          /\ eval (get_sim_carrier element) s = Return carrier
          /\ Carrier info = Some carrier).
Proof.
  split; [intros element; apply validate_true_iff|].
  split; [intros sub t; apply str_in_occurs|].
  split.
  - intros operator before element after Hi Hm Hop Hchildren Hbefore Hv.
    apply truthy_iff in Hi, Hm.
    assert (Hmatch : matched iccid imsi (children operator) element)
      by (apply matched_split; eauto).
    assert (Hrun : forall b sim_info apn,
               detail_loop (findall (root (self s)) "simdb/uicc") iccid
               = Return (b, sim_info, apn) ->
               exists info carrier,
                 parse_sim_info (Str iccid) (Str imsi) s
                 = (Return (Some info), s)
                 /\ eval (get_sim_carrier element) s = Return carrier
                 /\ Carrier info = Some carrier).
    { intros b sim_info apn Hd.
      destruct (operator_loop_matched apn s Hmatch)
        as (c & a & t & p & bd & Hc & _ & _ & _ & _ & Hloop).
      destruct (SimInfo_make_13 (Some c)
                  (match apn with None => a | Some _ => apn end) t p bd _
                  (detail_loop_length _ _ Hd))
        as (info & Hmake & Hcarrier & _).
      exists info, c. split; [|split; assumption].
      rewrite parse_sim_info_str by assumption.
      rewrite Hd, Hop. cbn [iter_of]. rewrite Hloop. now rewrite Hmake. }
    split.
    + intros result Hresult.
      destruct (detail_loop (findall (root (self s)) "simdb/uicc") iccid)
        as [[[b sim_info] apn]|e] eqn:Hd.
      * destruct (Hrun b sim_info apn eq_refl)
          as (info & carrier & Hcall & Hc & Hcarrier).
        unfold eval in Hresult. rewrite Hcall in Hresult.
        injection Hresult as <-. eauto.
      * unfold eval in Hresult.
        rewrite parse_sim_info_str, Hd in Hresult by assumption.
        discriminate.
    + intros [[b sim_info] apn] Hd _.
      destruct (Hrun b sim_info apn Hd) as (info & _ & Hcall & _).
      eauto.
  - intros info H. apply success_resolves in H as (i & m & Ei & Em & H).
    injection Ei as <-. injection Em as <-.
    apply resolves_fields in H
      as (b & sim_info & apn & operator & element & carrier & oapn & _ & Hop
          & Hmatch & Hc & _ & _ & _ & _ & Hcarrier & _).
    apply matched_split in Hmatch as (before & after & Hl & Hb & Hv).
    exists operator, before, element, after, carrier. auto 10.
Qed.

(** The scan at work in a call: the first record takes another ICCID, the
    second is accepted on an entry that is no prefix of the ICCID, the
    third has no prefixes at all and is never looked at. *)
Lemma operator_scan_first_match_witness :
  exists info,
    parse_sim_info (Str "8930212345678") (Str "302220000000001")
      Sample.s_scan
    = (Return (Some info), Sample.s_scan)
    /\ Carrier info = Some "Rogers".
Proof.
  destruct (operator_scan_first_match Sample.s_scan "8930212345678"
              "302220000000001") as (_ & _ & Hscan & _).
  destruct (Hscan (Element "Operator" None
                     [Sample.bell; Sample.rogers; Sample.broken])
              [Sample.bell] Sample.rogers [Sample.broken])
    as (Hresult & Hreturns).
  - discriminate.
  - discriminate.
  - reflexivity.
  - reflexivity.
  - repeat constructor.
  - reflexivity.
  - destruct (Hreturns
                (true,
                 [Some "8930212345"; None; None; None; None; None; None;
                  None],
                 None) eq_refl) as (info & Hrun).
    + split; [reflexivity|]. split; [discriminate|].
      intros operator element Hop Hin. injection Hop as <-.
      destruct Hin as [<-|[<-|[<-|[]]]]; reflexivity.
    + exists info. split; [exact Hrun|].
      destruct (Hresult (Some info)) as (info' & carrier & Hsome & Hc & Hcarrier).
      * unfold eval. now rewrite Hrun.
      * injection Hsome as <-. vm_compute in Hc. injection Hc as <-.
        exact Hcarrier.
Defined.

(** C7, where the code raises: the ICCID occurs in no ICCID entry of the
    one operator record, yet the call does not return [None].  With a
    detail record that has no [iccid] child the first loop raises
    [AttributeError]; with a comment standing before the record in
    [simdb/Operator] the scan hands the comment to [validate], which
    raises [AttributeError].  Nothing is logged either time. *)
Theorem no_operator_match_raises :
  Forall (fun element =>
            no_entry_occurs element "ICCID_prefix" "8930212345678")
    [Sample.bell]
  /\ find (root (self Sample.s_broken_detail)) "simdb/Operator"
     = Some (Element "Operator" None [Sample.bell])
  /\ parse_sim_info (Str "8930212345678") (Str "302220000000001")
       Sample.s_broken_detail
     = (Raise AttributeError, Sample.s_broken_detail)
  /\ iter_of (find (root (self Sample.s_commented)) "simdb/Operator")
     = Return [Comment (Some " carriers "); Sample.bell]
  /\ validate (Comment (Some " carriers ")) "8930212345678"
       "302220000000001"
     = Raise AttributeError
  /\ parse_sim_info (Str "8930212345678") (Str "302220000000001")
       Sample.s_commented
     = (Raise AttributeError, Sample.s_commented).
Proof.
  split.
  - constructor; [|constructor]. exists "89301". split; [reflexivity|].
    intros p [<-|[]]. reflexivity.
  - repeat split.
Qed.

End ScanInCall.

(* ================================================================== *)
(** ** Detail records *)

Section DetailRecords.

Lemma get_sim_info_detail_text (uicc c : _Element) (path : string) :
  find uicc path = Some c ->
  _get_sim_info_detail uicc path = Return (text c).
Proof. intros H. unfold _get_sim_info_detail. now rewrite H. Qed.

(** The detail loop leaves no [apn] when it stops at no record, or at a
    record without [apn] text. *)
Lemma detail_loop_no_apn (iccid : string) (l : list _Element) :
  Forall (detail_skipped iccid) l
  \/ (exists uicc, detail_matched iccid l uicc
                   /\ forall c, find uicc "apn" = Some c -> text c = None) ->
  exists is_detail_info sim_info,
    detail_loop l iccid = Return (is_detail_info, sim_info, None).
Proof.
  intros [Hall|(uicc & Hu & Hnone)].
  - exists false, []. now apply detail_loop_unmatched.
  - destruct (detail_loop_matched Hu)
      as (a & d1 & d2 & d3 & d4 & d5 & d6 & d7 & d8 & Ha & _ & _ & _ & _
          & _ & _ & _ & _ & Hrun).
    assert (a = None) as ->.
    { unfold _get_sim_info_detail in Ha.
      destruct (find uicc "apn") as [c|] eqn:Hc; cbn [text_of] in Ha.
      - rewrite (Hnone c eq_refl) in Ha. congruence.
      - congruence. }
    eauto.
Qed.

(** Where the [APN] of a returned [SimInfo] comes from when the detail
    loop left none: the lookup by the carrier of the record the scan
    stopped at. *)
Lemma operator_apn_of_call (s : state) (iccid imsi : string)
    (info : SimInfo) (is_detail_info : bool)
    (sim_info : list (option string)) :
  resolves s iccid imsi info ->
  detail_loop (findall (root (self s)) "simdb/uicc") iccid
  = Return (is_detail_info, sim_info, None) ->
  exists carrier operator element,
    Carrier info = Some carrier
    /\ find (root (self s)) "simdb/Operator" = Some operator
    /\ matched iccid imsi (children operator) element
    /\ eval (get_sim_carrier element) s = Return carrier
    /\ eval (get_sim_apn carrier) s = Return (APN info)
    /\ (sim_capability_xml_file_name (self s) = "simdb" ->
        plain_name carrier = true ->
        APN info = first_setting (root (self s)) carrier "APN")
    /\ (names_itself s element ->
        forall v, findtext element "APN" = Some v -> APN info = Some v).
Proof.
  intros H Hnone.
  apply resolves_fields in H
    as (b & si & apn & operator & element & carrier & oapn & Hd & Hop
        & Hmatch & Hc & Ha & _ & _ & _ & Hcarrier & Hapn & _).
  rewrite Hnone in Hd. injection Hd as _ _ Hnoapn. subst apn.
  assert (Hget : eval (get_sim_apn carrier) s = Return (APN info))
    by now rewrite Hapn.
  exists carrier, operator, element.
  repeat (split; [assumption|]). split.
  - intros Hname Hplain. unfold get_sim_apn in Hget.
    rewrite (get_sim_detail_first_setting s carrier "APN" Hname Hplain
               eq_refl) in Hget.
    now injection Hget.
  - intros Hown v Hv. pose proof Hown as (_ & _ & Htag & _).
    assert (carrier = tag element) as -> by congruence.
    unfold get_sim_apn in Hget.
    rewrite (@get_sim_detail_own_field s element "APN" v Hown eq_refl Hv)
      in Hget.
    now injection Hget.
Qed.

(** C5: in a call that returns a [SimInfo], when the detail loop stopped at
    a record whose [apn] element has a text, [APN] is that text, whatever
    the operator records hold.  When the detail loop left no [apn] (it
    stopped at no record, or at one without [apn] text), [APN] is the
    operator setting of the returned carrier: the text of the first
    [simdb/Operator/<carrier>/APN] of the document, which is the [APN] of
    the record the scan stopped at when the carrier names that record. *)
Theorem detail_apn_takes_priority (s : state) (iccid imsi : string)
    (info : SimInfo) :
  eval (parse_sim_info (Str iccid) (Str imsi)) s = Return (Some info) ->
  (forall uicc c apn,
     detail_matched iccid (findall (root (self s)) "simdb/uicc") uicc ->
     find uicc "apn" = Some c ->
     text c = Some apn ->
     APN info = Some apn)
  /\ (Forall (detail_skipped iccid) (findall (root (self s)) "simdb/uicc")
      \/ (exists uicc,
            detail_matched iccid (findall (root (self s)) "simdb/uicc") uicc
            /\ forall c, find uicc "apn" = Some c -> text c = None) ->
      exists carrier operator element,
        Carrier info = Some carrier
        /\ find (root (self s)) "simdb/Operator" = Some operator
        /\ matched iccid imsi (children operator) element
        /\ eval (get_sim_carrier element) s = Return carrier
        /\ eval (get_sim_apn carrier) s = Return (APN info)
        /\ (sim_capability_xml_file_name (self s) = "simdb" ->
            plain_name carrier = true ->
            APN info = first_setting (root (self s)) carrier "APN")
        /\ (names_itself s element ->
            forall v, findtext element "APN" = Some v -> APN info = Some v)).
Proof.
  intros H. apply success_resolves in H as (i & m & Ei & Em & H).
  injection Ei as <-. injection Em as <-. split.
  - intros uicc c a Hu Hc Ht.
    apply resolves_fields in H
      as (b & sim_info & apn & operator & element & carrier & oapn & Hd & _
          & _ & _ & _ & _ & _ & _ & _ & Hapn & _).
    destruct (detail_loop_matched Hu)
      as (a' & d1 & d2 & d3 & d4 & d5 & d6 & d7 & d8 & Ha' & _ & _ & _ & _
          & _ & _ & _ & _ & Hrun).
    rewrite Hrun in Hd. injection Hd as _ _ <-.
    rewrite (get_sim_info_detail_text _ _ Hc), Ht in Ha'.
    injection Ha' as <-. exact Hapn.
  - intros Hnone.
    destruct (detail_loop_no_apn Hnone) as (b & sim_info & Hd).
    exact (operator_apn_of_call H Hd).
Qed.

(** Both halves at work: the [apn] of the detail record wins over the
    [APN] of Telus; with a detail record whose [apn] is empty, the [APN]
    of Telus is returned. *)
Lemma detail_apn_takes_priority_witness :
  (exists info,
     eval (parse_sim_info (Str "8930212345678") (Str "302220000000001"))
       Sample.s_detail
     = Return (Some info)
     /\ findtext Sample.telus "APN" = Some "telus.apn"
     /\ APN info = Some "private.apn")
  /\ (exists info,
        eval (parse_sim_info (Str "8930212345678") (Str "302220000000001"))
          Sample.s_telus
        = Return (Some info)
        /\ APN info = Some "telus.apn").
Proof.
  split.
  - exists (mkSimInfo (Some "Telus") (Some "private.apn") (Some "tcp.apn")
              (Some "IP") (Some "4") (Some "8930212345")
              (Some "302220000000001") None None None None None None).
    split; [reflexivity|]. split; [reflexivity|].
    destruct (@detail_apn_takes_priority Sample.s_detail "8930212345678"
                "302220000000001"
                (mkSimInfo (Some "Telus") (Some "private.apn")
                   (Some "tcp.apn") (Some "IP") (Some "4")
                   (Some "8930212345") (Some "302220000000001") None None
                   None None None None) eq_refl) as [Hdetail _].
    apply (Hdetail Sample.uicc_apn (Sample.leaf "apn" "private.apn")
             "private.apn"); [|reflexivity|reflexivity].
    now apply detail_here with (t := "8930212345").
  - exists (mkSimInfo (Some "Telus") (Some "telus.apn") (Some "tcp.apn")
              (Some "IP") (Some "4") (Some "8930212345") None None None
              None None None None).
    split; [reflexivity|].
    destruct (@detail_apn_takes_priority Sample.s_telus "8930212345678"
                "302220000000001"
                (mkSimInfo (Some "Telus") (Some "telus.apn") (Some "tcp.apn")
                   (Some "IP") (Some "4") (Some "8930212345") None None None
                   None None None None) eq_refl) as [_ Hoperator].
    destruct Hoperator
      as (carrier & operator & element & _ & Hop & Hmatch & _ & _ & _ & Hown).
    + right. exists Sample.uicc_plain. split.
      * now apply detail_here with (t := "8930212345").
      * intros c Hc. injection Hc as <-. reflexivity.
    + injection Hop as <-.
      assert (Htelus : matched "8930212345678" "302220000000001"
                         [Sample.telus] Sample.telus)
        by now apply matched_here.
      rewrite (matched_unique Hmatch Htelus) in Hown.
      apply Hown; [|reflexivity].
      repeat split. now exists (Element "Operator" None [Sample.telus]).
Defined.

(** C9, as the code has it: in a call that returns a [SimInfo] while no
    detail record has an [iccid] occurring in the ICCID, the eight detail
    fields are [None] and [APN] is the operator setting of the returned
    carrier: the text of the first [simdb/Operator/<carrier>/APN] of the
    document.  It is the [APN] of the record the scan stopped at when the
    carrier names that record. *)
Theorem no_detail_record_fields (s : state) (iccid imsi : string)
    (info : SimInfo) :
  eval (parse_sim_info (Str iccid) (Str imsi)) s = Return (Some info) ->
  (forall uicc t,
     In uicc (findall (root (self s)) "simdb/uicc") ->
     text_of (find uicc "iccid") = Return (Some t) ->
     str_in t iccid = false) ->
  (Iccid info = None /\ Imsi info = None /\ Mcc info = None
   /\ Mnc info = None /\ Tel info = None /\ Pin info = None
   /\ Puk info = None /\ Smsc info = None)
  /\ exists carrier operator element,
       Carrier info = Some carrier
       /\ find (root (self s)) "simdb/Operator" = Some operator
       /\ matched iccid imsi (children operator) element
       /\ eval (get_sim_carrier element) s = Return carrier
       /\ eval (get_sim_apn carrier) s = Return (APN info)
       /\ (sim_capability_xml_file_name (self s) = "simdb" ->
           plain_name carrier = true ->
           APN info = first_setting (root (self s)) carrier "APN")
       /\ (names_itself s element ->
           forall v, findtext element "APN" = Some v -> APN info = Some v).
Proof.
  intros H Hnone. apply success_resolves in H as (i & m & Ei & Em & H).
  injection Ei as <-. injection Em as <-.
  pose proof (resolves_fields H)
    as (b & sim_info & apn & operator & element & carrier & oapn & Hd & _
        & _ & _ & _ & _ & _ & _ & _ & _ & Hfields).
  pose proof (detail_loop_inv _ _ Hd) as Hinv.
  destruct b.
  { destruct Hinv as [uicc Hu].
    apply detail_matched_occurs in Hu as (Hin & t & Ht & Hocc).
    rewrite (Hnone uicc t Hin Ht) in Hocc. discriminate. }
  destruct Hinv as (_ & -> & ->).
  cbn [repeat] in Hfields. injection Hfields as -> -> -> -> -> -> -> ->.
  split; [repeat split|].
  exact (operator_apn_of_call H Hd).
Qed.

Lemma no_detail_record_fields_witness :
  exists info,
    eval (parse_sim_info (Str "8930312345678") (Str "302220000000001"))
      Sample.s_detail
    = Return (Some info)
    /\ Iccid info = None
    /\ Smsc info = None
    /\ APN info = Some "telus.apn".
Proof.
  exists (mkSimInfo (Some "Telus") (Some "telus.apn") (Some "tcp.apn")
            (Some "IP") (Some "4") None None None None None None None None).
  split; [reflexivity|].
  destruct (@no_detail_record_fields Sample.s_detail "8930312345678"
              "302220000000001"
              (mkSimInfo (Some "Telus") (Some "telus.apn") (Some "tcp.apn")
                 (Some "IP") (Some "4") None None None None None None None
                 None) eq_refl)
    as [(H1 & _ & _ & _ & _ & _ & _ & H8)
        (carrier & operator & element & _ & Hop & Hmatch & _ & _ & _ & Hown)].
  - intros uicc t [<-|[]] Ht. injection Ht as <-. reflexivity.
  - split; [exact H1|]. split; [exact H8|].
    injection Hop as <-.
    assert (Htelus : matched "8930312345678" "302220000000001"
                       [Sample.telus] Sample.telus)
      by now apply matched_here.
    rewrite (matched_unique Hmatch Htelus) in Hown.
    apply Hown; [|reflexivity].
    repeat split. now exists (Element "Operator" None [Sample.telus]).
Defined.

(** C9 as stated fails: no detail record is there, the scan stops at the
    record "Amarisoft" whose [APN] is "lab.apn", and with the site "fr"
    the [APN] returned is that of the record "Amarisoft_fr". *)
Lemma apn_is_not_that_of_matched_record :
  exists info,
    eval (parse_sim_info (Str "8930212345678") (Str "302220000000001"))
      Sample.s_sites
    = Return (Some info)
    /\ findall (root (self Sample.s_sites)) "simdb/uicc" = []
    /\ matched "8930212345678" "302220000000001"
         [Sample.lab; Sample.amarisoft_fr] Sample.lab
    /\ findtext Sample.lab "APN" = Some "lab.apn"
    /\ APN info = Some "fr.apn"
    /\ APN info <> findtext Sample.lab "APN".
Proof.
  eexists. split; [reflexivity|]. split; [reflexivity|].
  split; [now apply matched_here|]. split; [reflexivity|].
  split; [reflexivity|]. discriminate.
Qed.

End DetailRecords.

(* ================================================================== *)
(** ** Records with a missing child *)

Section MissingChildren.

Lemma detail_loop_returns (l : list _Element) (iccid : string) :
  Forall (fun uicc => has_text uicc "iccid") l ->
  exists detail, detail_loop l iccid = Return detail.
Proof.
  induction 1 as [|uicc l [t Ht] _ [detail IH]]; [simpl; eauto|].
  destruct (str_in t iccid) eqn:Hin.
  - assert (Hm : detail_matched iccid (uicc :: l) uicc)
      by (eapply detail_here; eassumption).
    destruct (detail_loop_matched Hm)
      as (a & d1 & d2 & d3 & d4 & d5 & d6 & d7 & d8 & _ & _ & _ & _ & _ & _
          & _ & _ & _ & Hrun).
    eauto.
  - rewrite detail_loop_skip by (exists t; auto). eauto.
Qed.

Lemma validate_returns (element : _Element) (iccid imsi : string) :
  has_text element "ICCID_prefix" -> has_text element "IMSI_prefixes" ->
  exists ok, validate element iccid imsi = Return ok.
Proof.
  intros [t Ht] [t' Ht']. unfold validate. rewrite Ht, Ht'.
  cbn [obind split_of].
  destruct (existsb _ (split "," t)); [|eauto].
  destruct (truthy imsi); [|eauto].
  destruct (existsb _ (split "," t')); eauto.
Qed.

Lemma operator_loop_returns (l : list _Element) (iccid imsi : string)
    (apn : option string) (s : state) :
  Forall (fun element => has_text element "ICCID_prefix"
                         /\ has_text element "IMSI_prefixes") l ->
  exists found, operator_loop l iccid imsi apn s = (Return found, s).
Proof.
  induction 1 as [|element l [Hi Hm] _ [found IH]];
    [exists None; reflexivity|].
  destruct (validate_returns iccid imsi Hi Hm) as [[|] Hv].
  - assert (Hmatch : matched iccid imsi (element :: l) element)
      by now apply matched_here.
    destruct (operator_loop_matched apn s Hmatch)
      as (c & a & t & p & b & _ & _ & _ & _ & _ & Hrun).
    eauto.
  - rewrite operator_loop_skip by assumption. eauto.
Qed.

(** On a complete document every call returns, a [SimInfo] or [None]. *)
Lemma parse_sim_info_returns (s : state) (iccid imsi : object) :
  complete (root (self s)) ->
  exists result w, parse_sim_info iccid imsi s = (Return result, logged s w).
Proof.
  intros (Hdetail & operator & Hop & Hrecords).
  assert (Hs : logged s [] = s).
  { destruct s. unfold logged. simpl. now rewrite app_nil_r. }
  destruct (is_None iccid || negb (isinstance_str iccid) || eq_empty_str iccid)
    eqn:Gi.
  { do 2 eexists. now apply iccid_guard_returns_none. }
  destruct (is_None imsi || negb (isinstance_str imsi) || eq_empty_str imsi)
    eqn:Gm.
  { do 2 eexists. unfold parse_sim_info. now rewrite Gi, Gm. }
  destruct (truthy_guard _ Gi) as (i & -> & Hi).
  destruct (truthy_guard _ Gm) as (m & -> & Hm).
  rewrite parse_sim_info_str by assumption.
  destruct (detail_loop_returns i Hdetail) as [[[b sim_info] apn] Hd].
  rewrite Hd, Hop. cbn [iter_of].
  destruct (operator_loop_returns i m apn s Hrecords) as [found Hloop].
  rewrite Hloop.
  destruct (operator_loop_inv _ _ _ _ _ Hloop) as [_ Hfound].
  destruct found as [sim_tuple|]; [|eauto].
  destruct Hfound as [element Hmatch].
  destruct (operator_loop_matched apn s Hmatch)
    as (c & a & t & p & bd & _ & _ & _ & _ & _ & Hrun).
  rewrite Hrun in Hloop. injection Hloop as <-.
  destruct (SimInfo_make_13 (Some c)
              (match apn with None => a | Some _ => apn end) t p bd _
              (detail_loop_length _ _ Hd)) as (info & Hmake & _).
  rewrite Hmake. exists (Some info), []. now rewrite Hs.
Qed.

(** C4, where the code raises: the Telus record of the scenario has no
    [IMSI_prefixes]; for a SIM whose ICCID it accepts, [validate] raises
    [AttributeError] and so does the call, with nothing logged, although
    [_get_sim_info_detail] turns the same missing child into [None].  A
    detail record without [iccid] does the same to the first loop, and a
    document without [simdb/Operator] ends the call in [TypeError]. *)
Theorem missing_child_raises :
  validate Sample.telus_bare "8930212345678" "302220000000001"
  = Raise AttributeError
  /\ parse_sim_info (Str "8930212345678") (Str "302220000000001")
       Sample.s_bare
     = (Raise AttributeError, Sample.s_bare)
  /\ _get_sim_info_detail Sample.telus_bare "IMSI_prefixes" = Return None
  /\ parse_sim_info (Str "8930212345678") (Str "302220000000001")
       Sample.s_no_iccid
     = (Raise AttributeError, Sample.s_no_iccid)
  /\ _get_sim_info_detail Sample.uicc_no_iccid "iccid" = Return None
  /\ parse_sim_info (Str "8930212345678") (Str "302220000000001")
       Sample.s_no_operator
     = (Raise TypeError, Sample.s_no_operator).
Proof. repeat split. Qed.

End MissingChildren.

(* ================================================================== *)
(** ** More on [validate] *)

Section ValidateOutcomes.

Lemma text_of_raises (e : option _Element) (ex : exn) :
  text_of e = Raise ex -> e = None /\ ex = AttributeError.
Proof. destruct e; simpl; [discriminate|]. intros H. now inversion H. Qed.

Lemma has_text_iff (element : _Element) (field : string) :
  has_text element field
  <-> exists c t, find element field = Some c /\ text c = Some t.
Proof.
  unfold has_text. split.
  - intros [t H]. destruct (find element field) as [c|]; [|discriminate].
    simpl in H. exists c, t. split; [reflexivity|congruence].
  - intros (c & t & Hc & Ht). exists t. rewrite Hc. simpl. now rewrite Ht.
Qed.

Lemma existsb_none_occurs (l : list string) (s : string) :
  existsb (fun p => str_in p s) l = false
  <-> forall p, In p l -> str_in p s = false.
Proof.
  induction l as [|x l IH]; simpl.
  - split; [intros _ p []|reflexivity].
  - rewrite orb_false_iff, IH. split.
    + intros [Hx Hl] p [<-|Hp]; auto.
    + intros H. split; [apply H; now left|]. intros p Hp. apply H. now right.
Qed.

Lemma entry_occurs_existsb (element : _Element) (field s t : string) :
  text_of (find element field) = Return (Some t) ->
  entry_occurs element field s
  <-> existsb (fun p => str_in p s) (split "," t) = true.
Proof.
  intros Ht. rewrite existsb_occurs. unfold entry_occurs. split.
  - intros (t' & p & Ht' & Hp & Hocc). rewrite Ht in Ht'.
    injection Ht' as <-. eauto.
  - intros (p & Hp & Hocc). eauto.
Qed.

Lemma no_entry_occurs_existsb (element : _Element) (field s t : string) :
  text_of (find element field) = Return (Some t) ->
  no_entry_occurs element field s
  <-> existsb (fun p => str_in p s) (split "," t) = false.
Proof.
  intros Ht. rewrite existsb_none_occurs. unfold no_entry_occurs. split.
  - intros (t' & Ht' & H). rewrite Ht in Ht'. now injection Ht' as <-.
  - intros H. eauto.
Qed.

(** X1: [validate] raises nothing but [AttributeError], and raises it in
    two cases only: the record has no [ICCID_prefix] text; or one of its
    ICCID entries occurs in [iccid], [imsi] is not empty, and the record
    has no [IMSI_prefixes] text. *)
Theorem validate_raises_iff (element : _Element) (iccid imsi : string)
    (ex : exn) :
  validate element iccid imsi = Raise ex
  <-> ex = AttributeError
      /\ (~ has_text element "ICCID_prefix"
          \/ (entry_occurs element "ICCID_prefix" iccid
              /\ imsi <> EmptyString
              /\ ~ has_text element "IMSI_prefixes")).
Proof.
  unfold validate.
  destruct (text_of (find element "ICCID_prefix")) as [[t|]|e0] eqn:Hi;
    cbn [obind split_of].
  - pose proof (entry_occurs_existsb _ _ iccid Hi) as Hocc.
    assert (Hhas : has_text element "ICCID_prefix") by (exists t; exact Hi).
    destruct (existsb _ (split "," t)) eqn:Ei.
    + destruct (truthy imsi) eqn:Hne.
      * apply truthy_iff in Hne.
        assert (Hmissing :
                  ~ has_text element "IMSI_prefixes" ->
                  ~ has_text element "ICCID_prefix"
                  \/ (entry_occurs element "ICCID_prefix" iccid
                      /\ imsi <> EmptyString
                      /\ ~ has_text element "IMSI_prefixes")).
        { intros Hno. right. split; [apply Hocc; reflexivity|]. now split. }
        destruct (text_of (find element "IMSI_prefixes")) as [[t'|]|e1]
          eqn:Hm; cbn [obind split_of].
        -- assert (has_text element "IMSI_prefixes") by (exists t'; exact Hm).
           destruct (existsb _ (split "," t')); split; try discriminate;
             intros [_ [H'|(_ & _ & H')]]; contradiction.
        -- split; [|intros [-> _]; reflexivity].
           intros H. injection H as <-. split; [reflexivity|].
           apply Hmissing. intros [t' Ht']. congruence.
        -- apply text_of_raises in Hm as [Hnone ->].
           split; [|intros [-> _]; reflexivity].
           intros H. injection H as <-. split; [reflexivity|].
           apply Hmissing. intros [t' Ht']. rewrite Hnone in Ht'.
           discriminate.
      * split; [discriminate|]. intros [_ [H'|(_ & Hne' & _)]];
          [contradiction|]. apply truthy_iff in Hne'. congruence.
    + split; [discriminate|]. intros [_ [H'|(H' & _)]]; [contradiction|].
      apply Hocc in H'. discriminate.
  - split; [|intros [-> _]; reflexivity].
    intros H. injection H as <-. split; [reflexivity|].
    left. intros [t Ht]. congruence.
  - apply text_of_raises in Hi as [Hnone ->].
    split; [|intros [-> _]; reflexivity].
    intros H. injection H as <-. split; [reflexivity|].
    left. intros [t Ht]. rewrite Hnone in Ht. discriminate.
Qed.

(** X2: [validate] returns [False] in two cases only: none of the ICCID
    entries occurs in [iccid]; or one does, [imsi] is not empty, and none
    of the IMSI entries occurs in [imsi]. *)
Theorem validate_false_iff (element : _Element) (iccid imsi : string) :
  validate element iccid imsi = Return false
  <-> no_entry_occurs element "ICCID_prefix" iccid
      \/ (entry_occurs element "ICCID_prefix" iccid
          /\ imsi <> EmptyString
          /\ no_entry_occurs element "IMSI_prefixes" imsi).
Proof.
  split.
  - unfold validate.
    destruct (text_of (find element "ICCID_prefix")) as [[t|]|e0] eqn:Hi;
      cbn [obind split_of]; try discriminate.
    destruct (existsb _ (split "," t)) eqn:Ei.
    + destruct (truthy imsi) eqn:Hne; [|discriminate].
      destruct (text_of (find element "IMSI_prefixes")) as [[t'|]|e1] eqn:Hm;
        cbn [obind split_of]; try discriminate.
      destruct (existsb _ (split "," t')) eqn:Em; [discriminate|].
      intros _. right. split; [now apply (entry_occurs_existsb _ _ iccid Hi)|].
      split; [now apply truthy_iff|].
      now apply (no_entry_occurs_existsb _ _ imsi Hm).
    + intros _. left. now apply (no_entry_occurs_existsb _ _ iccid Hi).
  - intros [H|(Hocc & Hne & Hnone)].
    + now apply validate_no_iccid_entry.
    + destruct Hocc as (t & p & Ht & Hp & Hocc).
      destruct Hnone as (t' & Ht' & Hnone).
      unfold validate. rewrite Ht, Ht'. cbn [obind split_of].
      assert (Ei : existsb (fun c => str_in c iccid) (split "," t) = true)
        by (apply existsb_occurs; eauto).
      apply truthy_iff in Hne. rewrite Ei, Hne.
      assert (Em : existsb (fun c => str_in c imsi) (split "," t') = false)
        by now apply existsb_none_occurs.
      now rewrite Em.
Qed.

Lemma occurs_in_empty (s : string) : occurs_in EmptyString s.
Proof. exists EmptyString, s. reflexivity. Qed.

Lemma occurs_in_longer (sub s p q : string) :
  occurs_in sub s -> occurs_in sub (p ++ s ++ q).
Proof.
  intros (a & b & ->). exists (p ++ a)%string, (b ++ q)%string.
  now rewrite !append_assoc.
Qed.

Lemma append_not_empty (p s q : string) :
  s <> EmptyString -> (p ++ s ++ q)%string <> EmptyString.
Proof.
  intros Hs H. destruct p; [|discriminate]. simpl in H.
  destruct s; [now apply Hs|discriminate].
Qed.

(** X3: an empty entry in both prefix lists (a comma at either end of the
    text, or two commas in a row) makes the record accept every ICCID and
    every IMSI. *)
Theorem validate_empty_entries_accept_all (element : _Element)
    (iccids imsis : string) :
  text_of (find element "ICCID_prefix") = Return (Some iccids) ->
  text_of (find element "IMSI_prefixes") = Return (Some imsis) ->
  In EmptyString (split "," iccids) ->
  In EmptyString (split "," imsis) ->
  forall iccid imsi, validate element iccid imsi = Return true.
Proof.
  intros Hi Hm Hei Hem iccid imsi. apply validate_true_iff. split.
  - exists iccids, EmptyString. auto using occurs_in_empty.
  - intros _. exists imsis, EmptyString. auto using occurs_in_empty.
Qed.

Lemma validate_empty_entries_accept_all_witness :
  In EmptyString (split "," "89302,")
  /\ validate Sample.trailing "0000000000000" "999990000000000" = Return true.
Proof.
  assert (Hi : In EmptyString (split "," "89302,")) by (right; left; reflexivity).
  split; [exact Hi|].
  apply (@validate_empty_entries_accept_all Sample.trailing "89302," "302,"
           eq_refl eq_refl Hi).
  right; left; reflexivity.
Defined.

(** X4: a record that accepts an ICCID and a non-empty IMSI accepts every
    ICCID and IMSI that contain them, whatever stands before or after. *)
Theorem validate_accepts_longer (element : _Element)
    (iccid imsi before after before' after' : string) :
  validate element iccid imsi = Return true ->
  imsi <> EmptyString ->
  validate element (before ++ iccid ++ after) (before' ++ imsi ++ after')
  = Return true.
Proof.
  intros H Hne. apply validate_true_iff in H as [Hi Hm].
  apply validate_true_iff. split.
  - destruct Hi as (t & p & Ht & Hp & Hocc).
    exists t, p. auto using occurs_in_longer.
  - intros _. destruct (Hm Hne) as (t & p & Ht & Hp & Hocc).
    exists t, p. auto using occurs_in_longer.
Qed.

Lemma validate_accepts_longer_witness :
  validate Sample.telus "89302" "302" = Return true
  /\ validate Sample.telus "F8930212345678F" "00302220000000001"
     = Return true.
Proof.
  assert (H : validate Sample.telus "89302" "302" = Return true)
    by reflexivity.
  split; [exact H|].
  apply (@validate_accepts_longer Sample.telus "89302" "302" "F" "12345678F"
           "00" "220000000001" H).
  discriminate.
Defined.

End ValidateOutcomes.

(* ================================================================== *)
(** ** More on the getters *)

Section Getters.

(** X6: for a record its carrier names, a setting whose element is there
    but empty comes back from the getter as the empty string, while
    [_get_sim_info_detail] gives [None] for the same element. *)
Theorem empty_setting_is_empty_string (s : state) (element c : _Element)
    (field : string) :
  names_itself s element ->
  no_slash field = true ->
  find element field = Some c ->
  text c = None ->
  eval (_get_sim_detail (tag element) field) s = Return (Some EmptyString)
  /\ _get_sim_info_detail element field = Return None.
Proof.
  intros Hown Hfield Hc Ht. split.
  - apply get_sim_detail_own_field; try assumption.
    unfold findtext. now rewrite Hc, Ht.
  - unfold _get_sim_info_detail. rewrite Hc. cbn [text_of]. now rewrite Ht.
Qed.

Lemma empty_setting_is_empty_string_witness :
  names_itself Sample.s_quiet Sample.quiet
  /\ eval (get_sim_apn "Quiet") Sample.s_quiet = Return (Some EmptyString)
  /\ _get_sim_info_detail Sample.quiet "APN" = Return None.
Proof.
  assert (Hown : names_itself Sample.s_quiet Sample.quiet).
  { repeat split. now exists (Element "Operator" None [Sample.quiet]). }
  split; [exact Hown|].
  exact (@empty_setting_is_empty_string Sample.s_quiet Sample.quiet
           (Element "APN" None []) "APN" Hown eq_refl eq_refl eq_refl).
Defined.




Lemma str_in_amarisoft_site (site : string) :
  str_in "Amarisoft" ("Amarisoft_" ++ site) = true.
Proof.
  apply str_in_occurs. exists EmptyString, ("_" ++ site)%string. reflexivity.
Qed.

(** X8: the carrier names itself: a record tagged with the carrier gets
    that same carrier, and the carrier contains "Amarisoft" exactly when
    the tag it came from does. *)
Theorem get_sim_carrier_fixed_point (s : state) (element : _Element)
    (carrier : string) (t : option string) (c : list _Element) :
  eval (get_sim_carrier element) s = Return carrier ->
  eval (get_sim_carrier (Element carrier t c)) s = Return carrier
  /\ str_in "Amarisoft" carrier = str_in "Amarisoft" (tag element).
Proof.
  intros H.
  assert (He : is_element element = true).
  { destruct element; [reflexivity| |]; vm_compute in H; discriminate. }
  unfold eval in *. rewrite get_sim_carrier_returns in H by exact He.
  rewrite get_sim_carrier_returns by reflexivity. cbn [fst tag] in *.
  injection H as <-.
  destruct (str_in "Amarisoft" (tag element)) eqn:Ha.
  - destruct (default_cfg_site s) as [site|].
    + pose proof (str_in_amarisoft_site site) as Hsite.
      cbn [append] in Hsite |- *. rewrite Hsite. auto.
    + rewrite Ha. auto.
  - rewrite Ha. auto.
Qed.

Lemma get_sim_carrier_fixed_point_witness :
  eval (get_sim_carrier Sample.box) Sample.s_box = Return "Amarisoft_fr"
  /\ eval (get_sim_carrier Sample.amarisoft_fr) Sample.s_box
     = Return "Amarisoft_fr".
Proof.
  assert (H : eval (get_sim_carrier Sample.box) Sample.s_box
              = Return "Amarisoft_fr") by reflexivity.
  split; [exact H|].
  exact (proj1 (@get_sim_carrier_fixed_point Sample.s_box Sample.box
                  "Amarisoft_fr" None (children Sample.amarisoft_fr) H)).
Defined.

End Getters.

(* ================================================================== *)
(** ** More on the two loops *)

Section LoopOutcomes.

Lemma detail_skipped_split (iccid : string) (uicc : _Element)
    (before after : list _Element) (l : list _Element) :
  l = before ++ uicc :: after ->
  Forall (detail_skipped iccid) before ->
  detail_loop l iccid = detail_loop (uicc :: after) iccid.
Proof.
  intros -> Hall. induction Hall as [|x before Hx _ IH]; [reflexivity|].
  cbn [app]. now rewrite detail_loop_skip.
Qed.

(** X9: the detail loop stops at the first record whose [iccid] text
    occurs in the ICCID: the records after it play no part, and the loop
    leaves the eight fields of that record. *)
Theorem detail_loop_first_match (iccid t : string) (uicc : _Element)
    (before after : list _Element) :
  Forall (detail_skipped iccid) before ->
  text_of (find uicc "iccid") = Return (Some t) ->
  str_in t iccid = true ->
  detail_loop (before ++ uicc :: after) iccid = detail_loop [uicc] iccid
  /\ exists sim_info apn,
       detail_loop [uicc] iccid = Return (true, sim_info, apn)
       /\ length sim_info = 8
       /\ hd_error sim_info = Some (Some t)
       /\ _get_sim_info_detail uicc "apn" = Return apn.
Proof.
  intros Hall Ht Hin.
  assert (Hm : forall rest, detail_matched iccid (uicc :: rest) uicc)
    by (intros rest; eapply detail_here; eassumption).
  destruct (detail_loop_matched (Hm after))
    as (apn & d1 & d2 & d3 & d4 & d5 & d6 & d7 & d8 & Ha & H1 & _ & _ & _
        & _ & _ & _ & _ & Hrun).
  destruct (detail_loop_matched (Hm []))
    as (apn' & e1 & e2 & e3 & e4 & e5 & e6 & e7 & e8 & Ha' & H1' & H2' & H3'
        & H4' & H5' & H6' & H7' & H8' & Hrun').
  split.
  - rewrite (@detail_skipped_split iccid uicc before after _ eq_refl Hall).
    cbn [detail_loop] in Hrun, Hrun' |- *.
    rewrite Ht in *. cbn [obind in_of] in *. rewrite Hin in *.
    destruct (_get_sim_info_detail uicc "apn"); [|discriminate].
    destruct (_get_sim_info_detail uicc "iccid"); [|discriminate].
    destruct (_get_sim_info_detail uicc "imsi"); [|discriminate].
    destruct (_get_sim_info_detail uicc "mcc"); [|discriminate].
    destruct (_get_sim_info_detail uicc "mnc"); [|discriminate].
    destruct (_get_sim_info_detail uicc "tel"); [|discriminate].
    destruct (_get_sim_info_detail uicc "pin"); [|discriminate].
    destruct (_get_sim_info_detail uicc "puk"); [|discriminate].
    destruct (_get_sim_info_detail uicc "smsc"); [|discriminate].
    reflexivity.
  - do 2 eexists. split; [exact Hrun'|]. split; [reflexivity|].
    split; [|exact Ha'].
    unfold _get_sim_info_detail in H1'. rewrite Ht in H1'.
    injection H1' as <-. reflexivity.
Qed.

Lemma detail_loop_first_match_witness :
  detail_loop ([Sample.uicc_other] ++ Sample.uicc_plain
               :: [Sample.uicc_no_iccid]) "XX8930212345"
  = detail_loop [Sample.uicc_plain] "XX8930212345".
Proof.
  apply (@detail_loop_first_match "XX8930212345" "8930212345"
           Sample.uicc_plain [Sample.uicc_other] [Sample.uicc_no_iccid]).
  - constructor; [|constructor]. exists "8944000000". split; reflexivity.
  - reflexivity.
  - reflexivity.
Defined.

(** X10: the detail loop raises in two cases only, both at the first
    record that is not passed by: [AttributeError] when that record has no
    [iccid] child, [TypeError] when its [iccid] child has no text. *)
Theorem detail_loop_raises_iff (l : list _Element) (iccid : string)
    (ex : exn) :
  detail_loop l iccid = Raise ex
  <-> exists before uicc after,
        l = before ++ uicc :: after
        /\ Forall (detail_skipped iccid) before
        /\ ((find uicc "iccid" = None /\ ex = AttributeError)
            \/ (exists c, find uicc "iccid" = Some c /\ text c = None
                          /\ ex = TypeError)).
Proof.
  split.
  - induction l as [|uicc l IH]; [discriminate|].
    cbn [detail_loop].
    destruct (find uicc "iccid") as [c|] eqn:Hc; cbn [text_of obind].
    + destruct (text c) as [t|] eqn:Ht; cbn [in_of obind].
      * destruct (str_in t iccid) eqn:Hin.
        -- intros H. exfalso.
           assert (Hm : detail_matched iccid (uicc :: l) uicc).
           { eapply detail_here; [|exact Hin]. rewrite Hc. simpl.
             now rewrite Ht. }
           destruct (detail_loop_matched Hm)
             as (a & d1 & d2 & d3 & d4 & d5 & d6 & d7 & d8 & _ & _ & _ & _
                 & _ & _ & _ & _ & _ & Hrun).
           cbn [detail_loop] in Hrun. rewrite Hc in Hrun.
           cbn [text_of obind] in Hrun. rewrite Ht in Hrun.
           cbn [in_of obind] in Hrun. rewrite Hin in Hrun. congruence.
        -- intros H.
           destruct (IH H) as (before & u & after & -> & Hall & Hcase).
           exists (uicc :: before), u, after. split; [reflexivity|].
           split; [|exact Hcase]. constructor; [|exact Hall].
           exists t. split; [|exact Hin]. rewrite Hc. simpl. now rewrite Ht.
      * intros H. injection H as <-. exists [], uicc, l.
        split; [reflexivity|]. split; [constructor|]. right. eauto.
    + intros H. injection H as <-. exists [], uicc, l.
      split; [reflexivity|]. split; [constructor|]. left. auto.
  - intros (before & uicc & after & Hl & Hall & Hcase).
    rewrite (@detail_skipped_split iccid uicc before after _ Hl Hall). cbn [detail_loop].
    destruct Hcase as [[Hc ->]|(c & Hc & Ht & ->)]; rewrite Hc;
      cbn [text_of obind]; [reflexivity|]. now rewrite Ht.
Qed.

Lemma operator_loop_state (l : list _Element) (iccid imsi : string)
    (apn : option string) (s : state) :
  snd (operator_loop l iccid imsi apn s) = s.
Proof.
  induction l as [|element l IH]; [reflexivity|].
  destruct (validate element iccid imsi) as [[|]|e] eqn:Hv.
  - assert (Hm : matched iccid imsi (element :: l) element)
      by now apply matched_here.
    destruct (operator_loop_matched apn s Hm)
      as (c & a & t & p & b & _ & _ & _ & _ & _ & Hrun).
    now rewrite Hrun.
  - now rewrite operator_loop_skip.
  - cbn [operator_loop]. unfold bind at 1, lift. now rewrite Hv.
Qed.


End LoopOutcomes.

(* ================================================================== *)
(** ** More on [parse_sim_info] *)

Section CallOutcomes.

Lemma logged_nil (s : state) : logged s [] = s.
Proof. destruct s. unfold logged. simpl. now rewrite app_nil_r. Qed.

(** The tuple the operator loop hands over has five items. *)
Lemma operator_loop_tuple (l : list _Element) (iccid imsi : string)
    (apn : option string) (s s' : state) (sim_tuple : list (option string)) :
  operator_loop l iccid imsi apn s = (Return (Some sim_tuple), s') ->
  exists a b c d e, sim_tuple = [a; b; c; d; e].
Proof.
  intros H. destruct (operator_loop_inv _ _ _ _ _ H) as [-> [element Hm]].
  destruct (operator_loop_matched apn s Hm)
    as (c & a & t & p & b & _ & _ & _ & _ & _ & Hrun).
  rewrite Hrun in H. injection H as <-. eauto 6.
Qed.

(** One call: its outcome, and the warnings it adds. *)
Lemma warnings_of_call (iccid imsi : object) (s : state) :
  exists o w,
    parse_sim_info iccid imsi s = (o, logged s w)
    /\ (returned_none o = true -> exists msg, w = [msg])
    /\ (returned_none o = false -> w = []).
Proof.
  destruct (is_None iccid || negb (isinstance_str iccid) || eq_empty_str iccid)
    eqn:Gi.
  { exists (Return None), ["No ICCID from current device"].
    split; [now apply iccid_guard_returns_none|]. split; [eauto|discriminate]. }
  destruct (is_None imsi || negb (isinstance_str imsi) || eq_empty_str imsi)
    eqn:Gm.
  { exists (Return None), ["No IMSI from current device"].
    split; [unfold parse_sim_info; now rewrite Gi, Gm|].
    split; [eauto|discriminate]. }
  destruct (truthy_guard _ Gi) as (i & -> & Hi).
  destruct (truthy_guard _ Gm) as (m & -> & Hm).
  rewrite parse_sim_info_str by assumption.
  destruct (detail_loop (findall (root (self s)) "simdb/uicc") i)
    as [[[b sim_info] apn]|e] eqn:Hd.
  2:{ exists (Raise e), []. rewrite logged_nil.
      split; [reflexivity|]. split; [discriminate|reflexivity]. }
  destruct (iter_of (find (root (self s)) "simdb/Operator"))
    as [sim_elements|e].
  2:{ exists (Raise e), []. rewrite logged_nil.
      split; [reflexivity|]. split; [discriminate|reflexivity]. }
  pose proof (operator_loop_state sim_elements i m apn s) as Hst.
  destruct (operator_loop sim_elements i m apn s) as [[found|e] s1] eqn:Hloop;
    cbn [snd] in Hst; subst s1.
  2:{ exists (Raise e), []. rewrite logged_nil.
      split; [reflexivity|]. split; [discriminate|reflexivity]. }
  destruct found as [sim_tuple|].
  - destruct (SimInfo_make _) as [info|e].
    + exists (Return (Some info)), []. rewrite logged_nil.
      split; [reflexivity|]. split; [discriminate|reflexivity].
    + exists (Raise e), []. rewrite logged_nil.
      split; [reflexivity|]. split; [discriminate|reflexivity].
  - exists (Return None), ["Unable to parse Sim Information"].
    split; [reflexivity|]. split; [eauto|discriminate].
Qed.

(** X12: a call adds exactly one warning when it returns [None] and none
    otherwise, that is when it returns a [SimInfo] or raises; it changes
    nothing else. *)
Theorem parse_sim_info_warnings (iccid imsi : object) (s : state) :
  exists w,
    exec (parse_sim_info iccid imsi) s = logged s w
    /\ (eval (parse_sim_info iccid imsi) s = Return None
        -> exists msg, w = [msg])
    /\ (eval (parse_sim_info iccid imsi) s <> Return None -> w = []).
Proof.
  destruct (warnings_of_call iccid imsi s) as (o & w & Hrun & Hone & Hnone).
  exists w. unfold exec, eval. rewrite Hrun. cbn [fst snd].
  split; [reflexivity|]. split.
  - intros ->. now apply Hone.
  - intros Ho. apply Hnone. destruct o as [[info|]|e]; try reflexivity.
    now contradict Ho.
Qed.

(** X13: a [SimInfo] comes back only for an ICCID and an IMSI that are both
    non-empty strings, and its [Carrier] is never [None]. *)
Theorem sim_info_needs_both_identifiers (iccid imsi : object) (s : state)
    (info : SimInfo) :
  eval (parse_sim_info iccid imsi) s = Return (Some info) ->
  exists i m carrier,
    iccid = Str i /\ imsi = Str m
    /\ i <> EmptyString /\ m <> EmptyString
    /\ Carrier info = Some carrier.
Proof.
  intros H. apply success_resolves in H as (i & m & -> & -> & H).
  pose proof H as [_ _ _ _ _ _ _ _ _ _ Hi Hm _ _ _ _ _ _ _ _ _].
  apply resolves_fields in H
    as (_ & _ & _ & _ & _ & carrier & _ & _ & _ & _ & _ & _ & _ & _ & _
        & Hcarrier & _).
  exists i, m, carrier. repeat split; try assumption; now apply truthy_iff.
Qed.

Lemma sim_info_needs_both_identifiers_witness :
  exists info,
    eval (parse_sim_info (Str "8930212345678") (Str "302220000000001"))
      Sample.s_telus
    = Return (Some info)
    /\ exists carrier, Carrier info = Some carrier.
Proof.
  exists (mkSimInfo (Some "Telus") (Some "telus.apn") (Some "tcp.apn")
            (Some "IP") (Some "4") (Some "8930212345") None None None None
            None None None).
  split; [reflexivity|].
  destruct (@sim_info_needs_both_identifiers (Str "8930212345678")
              (Str "302220000000001") Sample.s_telus
              (mkSimInfo (Some "Telus") (Some "telus.apn") (Some "tcp.apn")
                 (Some "IP") (Some "4") (Some "8930212345") None None None
                 None None None None) eq_refl)
    as (i & m & carrier & _ & _ & _ & _ & Hcarrier).
  now exists carrier.
Defined.

(** X14: when the detail loop stopped at a record, the eight detail fields
    of a returned [SimInfo] are the eight texts of that record, and its
    [Iccid] occurs in the ICCID that was asked for. *)
Theorem detail_fields_of_matched_record (s : state) (iccid imsi : string)
    (info : SimInfo) (uicc : _Element) :
  eval (parse_sim_info (Str iccid) (Str imsi)) s = Return (Some info) ->
  detail_matched iccid (findall (root (self s)) "simdb/uicc") uicc ->
  _get_sim_info_detail uicc "iccid" = Return (Iccid info)
  /\ _get_sim_info_detail uicc "imsi" = Return (Imsi info)
  /\ _get_sim_info_detail uicc "mcc" = Return (Mcc info)
  /\ _get_sim_info_detail uicc "mnc" = Return (Mnc info)
  /\ _get_sim_info_detail uicc "tel" = Return (Tel info)
  /\ _get_sim_info_detail uicc "pin" = Return (Pin info)
  /\ _get_sim_info_detail uicc "puk" = Return (Puk info)
  /\ _get_sim_info_detail uicc "smsc" = Return (Smsc info)
  /\ exists t, Iccid info = Some t /\ occurs_in t iccid.
Proof.
  intros H Hu. apply success_resolves in H as (i & m & Ei & Em & H).
  injection Ei as <-. injection Em as <-.
  apply resolves_fields in H
    as (b & sim_info & apn & _ & _ & _ & _ & Hd & _ & _ & _ & _ & _ & _ & _
        & _ & _ & Hfields).
  destruct (detail_loop_matched Hu)
    as (a & d1 & d2 & d3 & d4 & d5 & d6 & d7 & d8 & _ & H1 & H2 & H3 & H4
        & H5 & H6 & H7 & H8 & Hrun).
  rewrite Hrun in Hd. injection Hd as <- <- _.
  injection Hfields as -> -> -> -> -> -> -> ->.
  repeat (split; [assumption|]).
  apply detail_matched_occurs in Hu as (_ & t & Ht & Hin).
  exists t. split; [|now apply str_in_occurs].
  unfold _get_sim_info_detail in H1. rewrite Ht in H1. congruence.
Qed.

Lemma detail_fields_of_matched_record_witness :
  exists info,
    eval (parse_sim_info (Str "8930212345678") (Str "302220000000001"))
      Sample.s_detail
    = Return (Some info)
    /\ Return (Imsi info) = Return (Some "302220000000001")
    /\ exists t, Iccid info = Some t /\ occurs_in t "8930212345678".
Proof.
  exists (mkSimInfo (Some "Telus") (Some "private.apn") (Some "tcp.apn")
            (Some "IP") (Some "4") (Some "8930212345")
            (Some "302220000000001") None None None None None None).
  split; [reflexivity|].
  destruct (@detail_fields_of_matched_record Sample.s_detail "8930212345678"
              "302220000000001"
              (mkSimInfo (Some "Telus") (Some "private.apn") (Some "tcp.apn")
                 (Some "IP") (Some "4") (Some "8930212345")
                 (Some "302220000000001") None None None None None None)
              Sample.uicc_apn eq_refl)
    as (_ & Himsi & _ & _ & _ & _ & _ & _ & Hocc).
  - now apply detail_here with (t := "8930212345").
  - split; [|exact Hocc]. now rewrite <- Himsi.
Defined.

End CallOutcomes.

Section CallFailures.

(** X15: a call raises only past the two parameter checks, and only where
    a loop raises or [simdb/Operator] is missing: the exception of the
    detail loop; [TypeError] when the detail loop returned and the
    document has no [simdb/Operator]; the exception of the operator loop
    otherwise.  [SimInfo._make] never raises. *)
Theorem parse_sim_info_raises_iff (iccid imsi : object) (s : state)
    (ex : exn) :
  eval (parse_sim_info iccid imsi) s = Raise ex
  <-> exists i m,
        iccid = Str i /\ imsi = Str m
        /\ i <> EmptyString /\ m <> EmptyString
        /\ (detail_loop (findall (root (self s)) "simdb/uicc") i = Raise ex
            \/ exists detail,
                 detail_loop (findall (root (self s)) "simdb/uicc") i
                 = Return detail
                 /\ ((find (root (self s)) "simdb/Operator" = None
                      /\ ex = TypeError)
                     \/ exists operator,
                          find (root (self s)) "simdb/Operator"
                          = Some operator
                          /\ eval (operator_loop (children operator) i m
                                     (snd detail)) s
                             = Raise ex)).
Proof.
  unfold eval. split.
  - destruct (is_None iccid || negb (isinstance_str iccid)
              || eq_empty_str iccid) eqn:Gi.
    { rewrite iccid_guard_returns_none by assumption. discriminate. }
    destruct (is_None imsi || negb (isinstance_str imsi) || eq_empty_str imsi)
      eqn:Gm.
    { unfold parse_sim_info. rewrite Gi, Gm. discriminate. }
    destruct (truthy_guard _ Gi) as (i & -> & Hi).
    destruct (truthy_guard _ Gm) as (m & -> & Hm).
    rewrite parse_sim_info_str by assumption.
    intros H. exists i, m.
    split; [reflexivity|]. split; [reflexivity|].
    split; [now apply truthy_iff|]. split; [now apply truthy_iff|].
    destruct (detail_loop (findall (root (self s)) "simdb/uicc") i)
      as [[[b sim_info] apn]|e] eqn:Hd.
    2:{ left. cbn [fst] in H. now injection H as <-. }
    right. exists (b, sim_info, apn). split; [reflexivity|].
    destruct (find (root (self s)) "simdb/Operator") as [operator|].
    2:{ left. cbn [iter_of fst] in H. injection H as <-. auto. }
    right. exists operator. split; [reflexivity|].
    cbn [iter_of snd] in H |- *.
    destruct (operator_loop (children operator) i m apn s)
      as [[found|e] s1] eqn:Hloop;
      [|cbn [fst] in H |- *; now injection H as <-].
    exfalso. destruct found as [sim_tuple|]; [|discriminate].
    destruct (operator_loop_tuple _ _ _ _ _ Hloop)
      as (x1 & x2 & x3 & x4 & x5 & ->).
    destruct (SimInfo_make_13 x1 x2 x3 x4 x5 _ (detail_loop_length _ _ Hd))
      as (info & Hmake & _).
    rewrite Hmake in H. discriminate.
  - intros (i & m & -> & -> & Hi & Hm & Hcase).
    apply truthy_iff in Hi, Hm.
    rewrite parse_sim_info_str by assumption.
    destruct Hcase as [Hd|([[b sim_info] apn] & Hd & Hcase)];
      rewrite Hd; [reflexivity|].
    destruct Hcase as [[Hop ->]|(operator & Hop & Hloop)]; rewrite Hop;
      [reflexivity|].
    cbn [iter_of snd] in Hloop |- *.
    destruct (operator_loop (children operator) i m apn s) as [o s1].
    cbn [fst] in Hloop. subst o. reflexivity.
Qed.

(** X16: on a complete document (no comment among the records of
    [simdb/Operator], which [validate] could not take) whose carriers are
    plain names (the getters are modelled on those) every call returns,
    and it returns a [SimInfo] exactly when the ICCID and the IMSI are
    non-empty strings and the operator loop stops at a record. *)
Theorem complete_document_returns (s : state) (iccid imsi : object) :
  complete (root (self s)) ->
  carriers_are_names s ->
  exists result,
    eval (parse_sim_info iccid imsi) s = Return result
    /\ (result <> None
        <-> exists i m operator element,
              iccid = Str i /\ imsi = Str m
              /\ i <> EmptyString /\ m <> EmptyString
              /\ find (root (self s)) "simdb/Operator" = Some operator
              /\ matched i m (children operator) element).
Proof.
  intros Hcomplete _.
  destruct (parse_sim_info_returns s iccid imsi Hcomplete)
    as (result & w & Hrun).
  exists result. unfold eval. rewrite Hrun. split; [reflexivity|]. split.
  - intros Hsome. destruct result as [info|]; [|now contradict Hsome].
    apply parse_sim_info_success in Hrun as (_ & i & m & -> & -> & H).
    destruct H as [b sim_info apn operator element carrier oapn apn_tcp pdp
                     band Hi Hm Hd Hop Hmatch _ _ _ _ _ _].
    exists i, m, operator, element.
    repeat split; try assumption; now apply truthy_iff.
  - intros (i & m & operator & element & -> & -> & Hi & Hm & Hop & Hmatch).
    apply truthy_iff in Hi, Hm.
    destruct Hcomplete as (Hdetail & _).
    destruct (detail_loop_returns i Hdetail) as [[[b sim_info] apn] Hd].
    rewrite parse_sim_info_str in Hrun by assumption.
    rewrite Hd, Hop in Hrun. cbn [iter_of] in Hrun.
    destruct (operator_loop_matched apn s Hmatch)
      as (c & a & t & p & bd & _ & _ & _ & _ & _ & Hloop).
    rewrite Hloop in Hrun.
    destruct (SimInfo_make _) in Hrun; [|discriminate].
    injection Hrun as <- _. discriminate.
Qed.

Lemma complete_document_returns_witness :
  complete (root (self Sample.s_detail))
  /\ carriers_are_names Sample.s_detail
  /\ exists result,
       eval (parse_sim_info (Str "8930212345678") (Str "302220000000001"))
         Sample.s_detail
       = Return result.
Proof.
  assert (Hc : complete (root (self Sample.s_detail))).
  { split.
    - constructor; [|constructor]. now exists "8930212345".
    - exists (Element "Operator" None [Sample.telus]). split; [reflexivity|].
      constructor; [|constructor].
      split; [now exists "89302,89303"|now exists "302,310"]. }
  assert (Hn : carriers_are_names Sample.s_detail).
  { split; [reflexivity|]. split; [discriminate|].
    intros operator element Hop Hin. injection Hop as <-.
    destruct Hin as [<-|[]]. reflexivity. }
  split; [exact Hc|]. split; [exact Hn|].
  destruct (@complete_document_returns Sample.s_detail (Str "8930212345678")
              (Str "302220000000001") Hc Hn) as (result & Hrun & _).
  now exists result.
Defined.

(** X17: after a call that returned a [SimInfo], the getters asked for the
    carrier of that [SimInfo] on the same instance return its [APN_TCP],
    [PDP] and [Band], and [get_sim_apn] returns its [APN] unless the
    detail loop supplied one. *)
Theorem getters_agree_after_lookup (s : state) (iccid imsi : object)
    (info : SimInfo) :
  eval (parse_sim_info iccid imsi) s = Return (Some info) ->
  exists carrier,
    Carrier info = Some carrier
    /\ eval (get_sim_apn_tcp carrier) (exec (parse_sim_info iccid imsi) s)
       = Return (APN_TCP info)
    /\ eval (get_sim_pdp carrier) (exec (parse_sim_info iccid imsi) s)
       = Return (PDP info)
    /\ eval (get_rf_band carrier) (exec (parse_sim_info iccid imsi) s)
       = Return (Band info)
    /\ (detail_loop (findall (root (self s)) "simdb/uicc") (str_of iccid)
        = Return (false, [], None)
        -> eval (get_sim_apn carrier) (exec (parse_sim_info iccid imsi) s)
           = Return (APN info)).
Proof.
  intros H. pose proof H as Hrun. apply eval_run in Hrun as [s' Hrun].
  pose proof (parse_sim_info_success _ _ _ Hrun) as [-> _].
  unfold exec. rewrite Hrun. cbn [snd].
  apply success_resolves in H as (i & m & -> & -> & H).
  apply resolves_fields in H
    as (b & sim_info & apn & operator & element & carrier & oapn & Hd & _
        & _ & _ & Ha & Ht & Hp & Hb & Hcarrier & Hapn & _).
  exists carrier. repeat (split; [assumption|]).
  cbn [str_of]. intros Hd'. rewrite Hd' in Hd. injection Hd as _ _ <-.
  now rewrite Hapn.
Qed.

Lemma getters_agree_after_lookup_witness :
  exists info,
    eval (parse_sim_info (Str "8930212345678") (Str "302220000000001"))
      Sample.s_telus
    = Return (Some info)
    /\ eval (get_sim_pdp "Telus")
         (exec (parse_sim_info (Str "8930212345678")
                  (Str "302220000000001")) Sample.s_telus)
       = Return (PDP info).
Proof.
  exists (mkSimInfo (Some "Telus") (Some "telus.apn") (Some "tcp.apn")
            (Some "IP") (Some "4") (Some "8930212345") None None None None
            None None None).
  split; [reflexivity|].
  destruct (@getters_agree_after_lookup Sample.s_telus (Str "8930212345678")
              (Str "302220000000001")
              (mkSimInfo (Some "Telus") (Some "telus.apn") (Some "tcp.apn")
                 (Some "IP") (Some "4") (Some "8930212345") None None None
                 None None None None) eq_refl)
    as (carrier & Hcarrier & _ & Hpdp & _).
  injection Hcarrier as <-. exact Hpdp.
Defined.

(** X18: over any sequence of calls on one instance there is one outcome
    per call, and the log grows by exactly one warning for each call that
    returned [None]. *)
Theorem run_calls_warnings_count (calls : list (object * object))
    (s : state) :
  length (fst (run_calls calls s)) = length calls
  /\ length (swilog (snd (run_calls calls s)))
     = length (swilog s)
       + length (filter returned_none (fst (run_calls calls s))).
Proof.
  revert s. induction calls as [|[iccid imsi] calls IH]; intros s.
  - simpl. split; [reflexivity|lia].
  - cbn [run_calls].
    destruct (warnings_of_call iccid imsi s) as (o & w & Hrun & Hone & Hnone).
    rewrite Hrun. destruct (IH (logged s w)) as [Hlen Hlog].
    destruct (run_calls calls (logged s w)) as [os s''].
    cbn [fst snd] in *. split; [simpl; now rewrite Hlen|].
    rewrite Hlog. unfold logged. cbn [swilog filter]. rewrite length_app.
    destruct (returned_none o).
    + destruct (Hone eq_refl) as [msg ->]. simpl. lia.
    + rewrite (Hnone eq_refl). simpl. lia.
Qed.

End CallFailures.

(* ================================================================== *)
(** ** Where the settings come from, and what the prefix lists mean *)

Section SettingsAndEntries.

Lemma existsb_same_members A (f : A -> bool) (l1 l2 : list A) :
  (forall x, In x l1 <-> In x l2) -> existsb f l1 = existsb f l2.
Proof.
  intros H. destruct (existsb f l1) eqn:E1; destruct (existsb f l2) eqn:E2;
    try reflexivity.
  - apply existsb_exists in E1 as (x & Hx & Hf).
    assert (E : existsb f l2 = true)
      by (apply existsb_exists; exists x; split; [now apply H|exact Hf]).
    congruence.
  - apply existsb_exists in E2 as (x & Hx & Hf).
    assert (E : existsb f l1 = true)
      by (apply existsb_exists; exists x; split; [now apply H|exact Hf]).
    congruence.
Qed.

(** X20: [validate] takes each prefix list as a set: two records whose
    ICCID entries are the same up to order and repetition, and likewise
    their IMSI entries, get the same answer for every ICCID and IMSI. *)
Theorem validate_entries_as_set (e1 e2 : _Element)
    (iccids1 iccids2 imsis1 imsis2 : string) :
  text_of (find e1 "ICCID_prefix") = Return (Some iccids1) ->
  text_of (find e2 "ICCID_prefix") = Return (Some iccids2) ->
  text_of (find e1 "IMSI_prefixes") = Return (Some imsis1) ->
  text_of (find e2 "IMSI_prefixes") = Return (Some imsis2) ->
  (forall p, In p (split "," iccids1) <-> In p (split "," iccids2)) ->
  (forall p, In p (split "," imsis1) <-> In p (split "," imsis2)) ->
  forall iccid imsi, validate e1 iccid imsi = validate e2 iccid imsi.
Proof.
  intros Hi1 Hi2 Hm1 Hm2 Hi Hm iccid imsi. unfold validate.
  rewrite Hi1, Hi2, Hm1, Hm2. cbn [obind split_of].
  rewrite (existsb_same_members (fun c => str_in c iccid) _ _ Hi).
  now rewrite (existsb_same_members (fun c => str_in c imsi) _ _ Hm).
Qed.

Lemma validate_entries_as_set_witness :
  validate Sample.telus "8930312345678" "310150000000001"
  = validate Sample.telus_shuffled "8930312345678" "310150000000001".
Proof.
  apply (@validate_entries_as_set Sample.telus Sample.telus_shuffled
           "89302,89303" "89303,89302,89303" "302,310" "310,302"
           eq_refl eq_refl eq_refl eq_refl).
  - intros p. simpl. tauto.
  - intros p. simpl. tauto.
Defined.

End SettingsAndEntries.
